(** * Reprojection of one image onto the pixel grid of another

    A shallow embedding of the array pipeline of [tut.py]: the coordinate
    grid built with [np.meshgrid], the pixel -> sky -> pixel mapping through
    two WCS objects, the rounding to integer indices, the six bound checks,
    the masked copy out of the second image and the zero/NaN substitution
    passes.

    Arrays are numpy arrays of two dimensions: a shape and a row-major
    buffer.  Samples are IEEE floats, given by [spec_float]; indices are
    integers.  Operations that numpy can refuse return an [outcome]. *)

From Stdlib Require Import ZArith Lia.
From Stdlib Require Import Floats.SpecFloat.
From stdpp Require Import base option list.

Open Scope Z_scope.

(** ** Exceptions *)

Inductive exn := IndexError | ValueError.

Inductive outcome (A : Type) :=
| Ok (a : A)
| Raise (e : exn).
Arguments Ok {A} a.
Arguments Raise {A} e.

#[global] Instance outcome_ret : MRet outcome := fun _ a => Ok a.
#[global] Instance outcome_bind : MBind outcome := fun _ _ k m =>
  match m with
  | Ok a => k a
  | Raise e => Raise e
  end.

(** ** numpy *)

Module np.

Record ndarray (A : Type) := NDArray {
  shape0 : nat;          (* .shape[0], the number of rows *)
  shape1 : nat;          (* .shape[1], the number of columns *)
  items : list A         (* the buffer, row after row *)
}.
Arguments NDArray {A} shape0 shape1 items.
Arguments shape0 {A} n.
Arguments shape1 {A} n.
Arguments items {A} n.

Definition shape {A} (a : ndarray A) : nat * nat := (shape0 a, shape1 a).

Definition well_shaped {A} (a : ndarray A) : Prop :=
  length (items a) = (shape0 a * shape1 a)%nat.

(** [np.arange(n)]: the integers 0 .. n-1, none when [n <= 0]. *)
Definition arange (n : Z) : list Z := seqZ 0 n.

(** [np.meshgrid(x, y)] with the default 'xy' indexing: both results have
    shape [(len y, len x)]; every row of the first is [x], every column of
    the second is [y]. *)
Definition meshgrid {A} (x y : list A) : ndarray A * ndarray A :=
  (NDArray (length y) (length x) (flat_map (fun _ => x) y),
   NDArray (length y) (length x) (flat_map (fun v => map (fun _ => v) x) y)).

(** A unary ufunc, or an array compared with a scalar. *)
Definition ufunc {A B} (f : A -> B) (a : ndarray A) : ndarray B :=
  NDArray (shape0 a) (shape1 a) (f <$> items a).

Definition same_shape {A B} (a : ndarray A) (b : ndarray B) : bool :=
  (shape0 a =? shape0 b)%nat && (shape1 a =? shape1 b)%nat.

(** A binary ufunc.  Every pair of operands in the script has one shape;
    a pair of different shapes is refused (unit dimensions are not
    stretched). *)
Definition ufunc2 {A B C} (f : A -> B -> C) (a : ndarray A) (b : ndarray B)
  : outcome (ndarray C) :=
  if same_shape a b
  then Ok (NDArray (shape0 a) (shape1 a) (zip_with f (items a) (items b)))
  else Raise ValueError.

Definition logical_or := ufunc2 orb.
Definition logical_not := ufunc negb.

Definition zero : spec_float := S754_zero false.
Definition nan : spec_float := S754_nan.

(** [np.zeros_like(a)] *)
Definition zeros_like {A} (a : ndarray A) : ndarray spec_float :=
  NDArray (shape0 a) (shape1 a) (replicate (shape0 a * shape1 a) zero).

(** [a == 0] on floats: both signed zeros compare equal, NaN never does. *)
Definition equal0 (v : spec_float) : bool := SFeqb v zero.

Definition isnan (v : spec_float) : bool :=
  match v with
  | S754_nan => true
  | _ => false
  end.

(** *** Rounding and conversion to integers *)

(** The integer nearest to [m * 2^e], ties to the even one. *)
Definition round_half_even (m : positive) (e : Z) : Z :=
  if 0 <=? e then Z.pos m * 2 ^ e
  else
    let d := 2 ^ (- e) in
    let q := Z.pos m / d in
    let r := Z.pos m mod d in
    match 2 * r ?= d with
    | Lt => q
    | Gt => q + 1
    | Eq => if Z.even q then q else q + 1
    end.

(** [np.rint]: a float again, the sign kept; NaN and the infinities pass. *)
Definition rint (v : spec_float) : spec_float :=
  match v with
  | S754_finite s m e =>
      match round_half_even m e with
      | Z.pos p => S754_finite s p 0
      | _ => S754_zero s
      end
  | _ => v
  end.

(** The integer part of a finite float, towards zero. *)
Definition truncate (v : spec_float) : option Z :=
  match v with
  | S754_zero _ => Some 0
  | S754_finite s m e =>
      let a := if 0 <=? e then Z.pos m * 2 ^ e else Z.pos m / 2 ^ (- e) in
      Some (if s then - a else a)
  | _ => None
  end.

Definition int_min : Z := - 2 ^ 63.
Definition int_max : Z := 2 ^ 63 - 1.

(** Conversion to [dtype='int'] (64 bits).  What a NaN, an infinity or a
    value out of range becomes is left to the platform: [invalid] gives it. *)
Definition astype_int (invalid : spec_float -> Z) (v : spec_float) : Z :=
  match truncate v with
  | Some z => if (int_min <=? z) && (z <=? int_max) then z else invalid v
  | None => invalid v
  end.

(** *** Indexing *)

(** [a[mask]] on a list: the items where the mask holds, in order. *)
Fixpoint select {A} (mask : list bool) (l : list A) : list A :=
  match mask, l with
  | b :: mask', v :: l' => if b then v :: select mask' l' else select mask' l'
  | _, _ => []
  end.

(** [a[mask] = vals] on a list: the values are consumed in order. *)
Fixpoint put {A} (mask : list bool) (l vals : list A) : list A :=
  match mask, l with
  | b :: mask', v :: l' =>
      if b then
        match vals with
        | w :: vals' => w :: put mask' l' vals'
        | [] => v :: put mask' l' []
        end
      else v :: put mask' l' vals
  | _, _ => l
  end.

(** How many entries of a mask hold. *)
Fixpoint count (mask : list bool) : nat :=
  match mask with
  | [] => 0
  | b :: mask' => if b then S (count mask') else count mask'
  end.

(** [a[mask]] with a boolean array of the shape of [a]. *)
Definition getitem_mask {A} (a : ndarray A) (mask : ndarray bool) : outcome (list A) :=
  if same_shape a mask then Ok (select (items mask) (items a))
  else Raise IndexError.

(** An integer index along an axis of [n] entries: a negative one counts
    from the end, anything outside [-n, n) is refused. *)
Definition normalize_index (n : nat) (i : Z) : outcome Z :=
  if (0 <=? i) && (i <? Z.of_nat n) then Ok i
  else if (- Z.of_nat n <=? i) && (i <? 0) then Ok (i + Z.of_nat n)
  else Raise IndexError.

(** [a[y, x]] with two integers. *)
Definition getitem2 {A} (a : ndarray A) (y x : Z) : outcome A :=
  r ← normalize_index (shape0 a) y;
  c ← normalize_index (shape1 a) x;
  match items a !! Z.to_nat (r * Z.of_nat (shape1 a) + c) with
  | Some v => Ok v
  | None => Raise IndexError
  end.

(** [a[ys, xs]] with two integer arrays of one dimension and one length. *)
Fixpoint getitem_fancy {A} (a : ndarray A) (ys xs : list Z) : outcome (list A) :=
  match ys, xs with
  | [], [] => Ok []
  | y :: ys', x :: xs' =>
      v ← getitem2 a y x;
      vs ← getitem_fancy a ys' xs';
      Ok (v :: vs)
  | _, _ => Raise IndexError
  end.

(** [a[mask] = vals]: as many values as the mask selects, or a single one
    that is repeated. *)
Definition setitem_mask {A} (a : ndarray A) (mask : ndarray bool) (vals : list A)
  : outcome (ndarray A) :=
  if same_shape a mask then
    if (length vals =? count (items mask))%nat
    then Ok (NDArray (shape0 a) (shape1 a) (put (items mask) (items a) vals))
    else
      match vals with
      | [v] => Ok (NDArray (shape0 a) (shape1 a)
                     (zip_with (fun (b : bool) x => if b then v else x)
                        (items mask) (items a)))
      | _ => Raise ValueError
      end
  else Raise IndexError.

(** [a[mask] = v] with a scalar [v]. *)
Definition setitem_mask_scalar {A} (a : ndarray A) (mask : ndarray bool) (v : A)
  : outcome (ndarray A) :=
  if same_shape a mask then
    Ok (NDArray (shape0 a) (shape1 a)
          (zip_with (fun (b : bool) x => if b then v else x) (items mask) (items a)))
  else Raise IndexError.

(** [a[r, c]] for reading off one entry in the statements below. *)
Definition at2 {A} (a : ndarray A) (r c : nat) : option A :=
  if (r <? shape0 a)%nat && (c <? shape1 a)%nat
  then items a !! (r * shape1 a + c)%nat
  else None.

End np.

Import np.

(** ** The script *)

Module tut.

(** A WCS object, as far as the script uses it: [all_pix2world(x, y, origin)]
    and [all_world2pix(ra, dec, origin)], both applied entry by entry. *)
Record WCS := {
  all_pix2world : Z -> Z -> Z -> spec_float * spec_float;
  all_world2pix : spec_float -> spec_float -> Z -> spec_float * spec_float
}.

(** Lines 113-114: [xarray, yarray] for a [H] x [W] image. *)
Definition grid (H W : Z) : ndarray Z * ndarray Z :=
  meshgrid (arange W) (arange H).

Definition coordinate_grid {A} (data : ndarray A) : ndarray Z * ndarray Z :=
  grid (Z.of_nat (shape0 data)) (Z.of_nat (shape1 data)).

(** The grid generator as a stage that may refuse its arguments. *)
Definition grid_generator (H W : Z) : outcome (ndarray Z * ndarray Z) :=
  Ok (grid H W).

(** Line 216: [ra_array, dec_array = w1.all_pix2world(xarray, yarray, 0)] *)
Definition pix2world (w : WCS) (xarray yarray : ndarray Z)
  : outcome (ndarray spec_float * ndarray spec_float) :=
  ra ← ufunc2 (fun x y => fst (all_pix2world w x y 0)) xarray yarray;
  dec ← ufunc2 (fun x y => snd (all_pix2world w x y 0)) xarray yarray;
  Ok (ra, dec).

(** Line 236: [newxarray, newyarray = w2.all_world2pix(ra_array, dec_array, 0)] *)
Definition world2pix (w : WCS) (ra_array dec_array : ndarray spec_float)
  : outcome (ndarray spec_float * ndarray spec_float) :=
  x ← ufunc2 (fun ra dec => fst (all_world2pix w ra dec 0)) ra_array dec_array;
  y ← ufunc2 (fun ra dec => snd (all_world2pix w ra dec 0)) ra_array dec_array;
  Ok (x, y).

(** Lines 246-247: [np.array(np.rint(a), dtype='int')] *)
Definition to_int (invalid : spec_float -> Z) (a : ndarray spec_float) : ndarray Z :=
  ufunc (fun v => astype_int invalid (rint v)) a.

(** Lines 274-291: the six ways a pixel is bad, or-ed and negated. *)
Definition good_pixels {A B} (newdata : ndarray A) (im2 : ndarray B)
    (newxarray newyarray : ndarray Z) : outcome (ndarray bool) :=
  let bad1 := ufunc (fun x => x <? 0) newxarray in
  let bad2 := ufunc (fun y => y <? 0) newyarray in
  let bad3 := ufunc (fun x => x >? Z.of_nat (shape1 newdata) - 1) newxarray in
  let bad4 := ufunc (fun y => y >? Z.of_nat (shape0 newdata) - 1) newyarray in
  let bad5 := ufunc (fun x => x >? Z.of_nat (shape1 im2) - 1) newxarray in
  let bad6 := ufunc (fun y => y >? Z.of_nat (shape0 im2) - 1) newyarray in
  boolean_array ← logical_or bad1 bad2;
  boolean_array ← logical_or boolean_array bad3;
  boolean_array ← logical_or boolean_array bad4;
  boolean_array ← logical_or boolean_array bad5;
  boolean_array ← logical_or boolean_array bad6;
  Ok (logical_not boolean_array).

(** Lines 302-303:
    [newdata[boolean_array] = im2[0].data[newyarray[boolean_array],
                                          newxarray[boolean_array]]] *)
Definition copy_good {A} (newdata im2 : ndarray A)
    (newxarray newyarray : ndarray Z) (boolean_array : ndarray bool)
  : outcome (ndarray A) :=
  ys ← getitem_mask newyarray boolean_array;
  xs ← getitem_mask newxarray boolean_array;
  vals ← getitem_fancy im2 ys xs;
  setitem_mask newdata boolean_array vals.

(** Line 310 and line 319: [newdata[newdata == 0] = np.nan] *)
Definition zeros_to_nan (newdata : ndarray spec_float) : outcome (ndarray spec_float) :=
  setitem_mask_scalar newdata (ufunc equal0 newdata) nan.

(** Line 315: [newdata[np.isnan(newdata)] = 0] *)
Definition nans_to_zero (newdata : ndarray spec_float) : outcome (ndarray spec_float) :=
  setitem_mask_scalar newdata (ufunc isnan newdata) zero.

(** Lines 310-319, the three passes in a row. *)
Definition blank (newdata : ndarray spec_float) : outcome (ndarray spec_float) :=
  newdata ← zeros_to_nan newdata;
  newdata ← nans_to_zero newdata;
  zeros_to_nan newdata.

(** Lines 113-247: from the shape of the first image to integer pixel
    coordinates in the second. *)
Record mapping := Mapping {
  xarray : ndarray Z;
  yarray : ndarray Z;
  ra_array : ndarray spec_float;
  dec_array : ndarray spec_float;
  newxarray : ndarray Z;
  newyarray : ndarray Z
}.

Definition coordinate_mapper {A} (invalid : spec_float -> Z)
    (im1 : ndarray A) (w1 w2 : WCS) : outcome mapping :=
  let '(xarray, yarray) := coordinate_grid im1 in
  '(ra_array, dec_array) ← pix2world w1 xarray yarray;
  '(newxarray, newyarray) ← world2pix w2 ra_array dec_array;
  Ok (Mapping xarray yarray ra_array dec_array
        (to_int invalid newxarray) (to_int invalid newyarray)).

(** Lines 266-319: the mask and the new data array. *)
Definition resampler (im1 im2 : ndarray spec_float)
    (newxarray newyarray : ndarray Z)
  : outcome (ndarray bool * ndarray spec_float) :=
  let newdata := zeros_like im1 in
  boolean_array ← good_pixels newdata im2 newxarray newyarray;
  newdata ← copy_good newdata im2 newxarray newyarray boolean_array;
  newdata ← blank newdata;
  Ok (boolean_array, newdata).

(** The whole run, from the two data arrays and their WCS to the array
    that is written out. *)
Record run := Run {
  coords : mapping;
  boolean_array : ndarray bool;
  newdata : ndarray spec_float
}.

Definition script (invalid : spec_float -> Z)
    (im1 im2 : ndarray spec_float) (w1 w2 : WCS) : outcome run :=
  m ← coordinate_mapper invalid im1 w1 w2;
  '(boolean_array, newdata) ← resampler im1 im2 (newxarray m) (newyarray m);
  Ok (Run m boolean_array newdata).

End tut.

Import tut.

(** * Entry-wise readings and sample data *)

(** Lines 274-291 at one pixel: none of [bad1] .. [bad6] holds. *)
Definition good (H1 W1 H2 W2 : nat) (x y : Z) : bool :=
  negb ((x <? 0) || (y <? 0)
        || (x >? Z.of_nat W1 - 1) || (y >? Z.of_nat H1 - 1)
        || (x >? Z.of_nat W2 - 1) || (y >? Z.of_nat H2 - 1)).

(** The sample of [a] in row [y], column [x], for indices in range. *)
Definition peek (a : ndarray spec_float) (y x : Z) : spec_float :=
  default zero (items a !! Z.to_nat (y * Z.of_nat (shape1 a) + x)).

(** Line 310 and line 315 at one sample. *)
Definition zero_to_nan (v : spec_float) : spec_float := if equal0 v then nan else v.
Definition nan_to_zero (v : spec_float) : spec_float := if isnan v then zero else v.

(** What lines 266-319 leave at a pixel mapped to column [x], row [y] of the
    second image. *)
Definition newdata_at (im1 im2 : ndarray spec_float) (x y : Z) : spec_float :=
  zero_to_nan
    (if good (shape0 im1) (shape1 im1) (shape0 im2) (shape1 im2) x y
     then peek im2 y x else zero).

(** The mask of lines 274-291 at such a pixel. *)
Definition good_at (im1 im2 : ndarray spec_float) (x y : Z) : bool :=
  good (shape0 im1) (shape1 im1) (shape0 im2) (shape1 im2) x y.

(** Arrays of one entry, and the sample 5.0. *)
Definition M11 (x : Z) : ndarray Z := NDArray 1 1 [x].
Definition five : spec_float := S754_finite false 5 0.
Definition F11 (v : spec_float) : ndarray spec_float := NDArray 1 1 [v].

(** The mask with only four of the six checks: [bad1], [bad2], [bad5] and
    [bad6], without the two against the shape of [newdata]. *)
Definition good_pixels_four {B} (im2 : ndarray B) (newxarray newyarray : ndarray Z)
  : outcome (ndarray bool) :=
  let bad1 := ufunc (fun x => x <? 0) newxarray in
  let bad2 := ufunc (fun y => y <? 0) newyarray in
  let bad5 := ufunc (fun x => x >? Z.of_nat (shape1 im2) - 1) newxarray in
  let bad6 := ufunc (fun y => y >? Z.of_nat (shape0 im2) - 1) newyarray in
  boolean_array ← logical_or bad1 bad2;
  boolean_array ← logical_or boolean_array bad5;
  boolean_array ← logical_or boolean_array bad6;
  Ok (logical_not boolean_array).

(** The four checks at one pixel. *)
Definition good_four (H2 W2 : nat) (x y : Z) : bool :=
  negb ((x <? 0) || (y <? 0)
        || (x >? Z.of_nat W2 - 1) || (y >? Z.of_nat H2 - 1)).

(** A pixel of the first image carried to the sky by [w1] and back to pixel
    coordinates by [w2] (lines 216 and 236 at one entry). *)
Definition through (w1 w2 : WCS) (p : Z * Z) : spec_float * spec_float :=
  let sky := all_pix2world w1 p.1 p.2 0 in
  all_world2pix w2 sky.1 sky.2 0.

(** The float [v] has exactly the integer value [z]. *)
Definition exact (v : spec_float) (z : Z) : Prop :=
  match v with
  | S754_zero _ => z = 0
  | S754_finite s m e =>
      if 0 <=? e then z = (if s then - (Z.pos m * 2 ^ e) else Z.pos m * 2 ^ e)
      else (if s then Z.neg m else Z.pos m) = z * 2 ^ (- e)
  | _ => False
  end.

(** The float of an integer, with the integer as its mantissa. *)
Definition float_of_Z (z : Z) : spec_float :=
  match z with
  | 0 => S754_zero false
  | Z.pos p => S754_finite false p 0
  | Z.neg p => S754_finite true p 0
  end.

(** A transform pair that is exact on integers: the sky coordinates of a pixel
    are the floats of its column and row, and back. *)
Definition plain_wcs : WCS := {|
  all_pix2world := fun x y _ => (float_of_Z x, float_of_Z y);
  all_world2pix := fun ra dec _ => (ra, dec)
|}.

(** [a] has the shape of [b], and as many entries as that shape holds. *)
Definition shaped_like {A B} (a : ndarray A) (b : ndarray B) : Prop :=
  shape a = shape b /\ length (items a) = (shape0 b * shape1 b)%nat.

(** A transform whose way back yields NaN for the column of every pixel. *)
Definition nan_wcs : WCS := {|
  all_pix2world := fun x y _ => (float_of_Z x, float_of_Z y);
  all_world2pix := fun ra dec _ => (nan, dec)
|}.

(** * More of the script *)

(** [np.sum] of a boolean array (line 149): True counts 1, False counts 0. *)
Definition np_sum (a : ndarray bool) : Z :=
  foldr (fun (b : bool) n => (if b then 1 else 0) + n) 0 (items a).

(** [np.logical_and] (lines 156, 169). *)
Definition logical_and := ufunc2 andb.

(** [l[i]] on an array of one dimension. *)
Definition getitem1 {A} (l : list A) (i : Z) : outcome A :=
  k ← normalize_index (length l) i;
  match l !! Z.to_nat k with
  | Some v => Ok v
  | None => Raise IndexError
  end.

(** [a[i, :]] (line 69): one row. *)
Definition getitem_row {A} (a : ndarray A) (i : Z) : outcome (list A) :=
  r ← normalize_index (shape0 a) i;
  Ok (take (shape1 a) (drop (Z.to_nat r * shape1 a) (items a))).

(** [a[:, j]] (line 73): one column. *)
Definition getitem_col {A} (a : ndarray A) (j : Z) : outcome (list A) :=
  c ← normalize_index (shape1 a) j;
  Ok (omap (fun r => items a !! (r * shape1 a + Z.to_nat c)%nat) (seq 0 (shape0 a))).

(** An end of a slice along an axis of [n] entries: a negative one counts from
    the end, and the result is clipped to [0, n]. *)
Definition clip (n : nat) (z : Z) : nat :=
  Z.to_nat (Z.min (Z.max (if z <? 0 then z + Z.of_nat n else z) 0) (Z.of_nat n)).

Definition slice_start (n : nat) (start : option Z) : nat :=
  match start with
  | None => 0%nat
  | Some z => clip n z
  end.

Definition slice_stop (n : nat) (stop : option Z) : nat :=
  match stop with
  | None => n
  | Some z => clip n z
  end.

(** [a[start0:stop0, start1:stop1]] (line 77 is [a[:5, -5:]]). *)
Definition getitem_slices {A} (a : ndarray A) (start0 stop0 start1 stop1 : option Z)
  : ndarray A :=
  let r0 := slice_start (shape0 a) start0 in
  let r1 := slice_stop (shape0 a) stop0 in
  let c0 := slice_start (shape1 a) start1 in
  let c1 := slice_stop (shape1 a) stop1 in
  NDArray (r1 - r0) (c1 - c0)
    (flat_map (fun r => take (c1 - c0) (drop (r * shape1 a + c0) (items a)))
       (seq r0 (r1 - r0))).

(** Lines 187-188: the loop over [range(len(pix_values))]; what it prints is
    the list of the rows [(x, y, value)]. *)
Fixpoint print_rows (x_coordinates y_coordinates : list Z) (pix_values : list spec_float)
    (range : list Z) : outcome (list (Z * Z * spec_float)) :=
  match range with
  | [] => Ok []
  | i :: range' =>
      x ← getitem1 x_coordinates i;
      y ← getitem1 y_coordinates i;
      v ← getitem1 pix_values i;
      rows ← print_rows x_coordinates y_coordinates pix_values range';
      Ok ((x, y, v) :: rows)
  end.

(** Lines 184-188, for a boolean array of the shape of the image: the values
    and the coordinates of the pixels it selects, listed side by side. *)
Definition list_pixels (data : ndarray spec_float) (boolean_array : ndarray bool)
  : outcome (list (Z * Z * spec_float)) :=
  let '(xarray, yarray) := coordinate_grid data in
  pix_values ← getitem_mask data boolean_array;
  x_coordinates ← getitem_mask xarray boolean_array;
  y_coordinates ← getitem_mask yarray boolean_array;
  print_rows x_coordinates y_coordinates pix_values
    (arange (Z.of_nat (length pix_values))).

(** Line 253, the copy without a mask: [im2[0].data[newyarray, newxarray]]
    with the two index arrays whole. *)
Definition copy_all {A} (im2 : ndarray A) (newxarray newyarray : ndarray Z)
  : outcome (ndarray A) :=
  if same_shape newyarray newxarray then
    vals ← getitem_fancy im2 (items newyarray) (items newxarray);
    Ok (NDArray (shape0 newyarray) (shape1 newyarray) vals)
  else Raise IndexError.



(** * Properties *)

(** ** Lists under a mask *)

Section Masked.
Context {A B : Type}.
Implicit Types (mask : list bool) (l : list A) (pts : list B).

Lemma select_fmap (f : B -> A) mask pts :
  select mask (f <$> pts) = f <$> select mask pts.
Proof.
  revert pts; induction mask as [|b mask IH]; intros [|p pts]; simpl; try done.
  destruct b; simpl; by rewrite IH.
Qed.

Lemma length_select mask pts :
  length pts = length mask -> length (select mask pts) = count mask.
Proof.
  revert pts; induction mask as [|b mask IH]; intros [|p pts] Hlen; simpl in *; try done.
  destruct b; simpl; rewrite IH; lia.
Qed.

Lemma length_put mask l vals : length (put mask l vals) = length l.
Proof.
  revert l vals; induction mask as [|b mask IH]; intros [|v l] vals; simpl; try done.
  destruct b; [destruct vals|]; simpl; by rewrite IH.
Qed.

(** Writing back what was selected: an entry under the mask gets the value
    computed from its own point, the others keep theirs. *)
Lemma put_select (f : B -> A) (g : B -> bool) pts l :
  length l = length pts ->
  put (g <$> pts) l (f <$> select (g <$> pts) pts)
  = zip_with (fun p v => if g p then f p else v) pts l.
Proof.
  revert l; induction pts as [|p pts IH]; intros [|v l] Hlen; simpl in *; try done.
  destruct (g p); simpl; rewrite IH by lia; done.
Qed.

Lemma select_Forall (g : B -> bool) pts :
  Forall (fun p => g p = true) (select (g <$> pts) pts).
Proof.
  induction pts as [|p pts IH]; simpl; [constructor|].
  destruct (g p) eqn:Hg; [constructor|]; done.
Qed.
End Masked.

Lemma zip_with_fmap_zip {A B C D E} (f : C -> D -> E) (g : A -> C) (h : B -> D)
    (xs : list A) (ys : list B) :
  zip_with f (g <$> xs) (h <$> ys) = (fun p : A * B => f (g p.1) (h p.2)) <$> zip xs ys.
Proof.
  apply list_eq; intros i.
  rewrite lookup_zip_with, !list_lookup_fmap, lookup_zip_with.
  by destruct (xs !! i), (ys !! i).
Qed.

Lemma zip_with_zip_r {A B C D E} (f : C -> D -> E) (g : A * B -> C) (h : B -> D)
    (xs : list A) (ys : list B) :
  zip_with f (g <$> zip xs ys) (h <$> ys) = (fun p : A * B => f (g p) (h p.2)) <$> zip xs ys.
Proof.
  apply list_eq; intros i.
  rewrite lookup_zip_with, !list_lookup_fmap, lookup_zip_with.
  by destruct (xs !! i), (ys !! i).
Qed.

Lemma zip_with_zip_l {A B C D E} (f : C -> D -> E) (g : A * B -> C) (h : A -> D)
    (xs : list A) (ys : list B) :
  zip_with f (g <$> zip xs ys) (h <$> xs) = (fun p : A * B => f (g p) (h p.1)) <$> zip xs ys.
Proof.
  apply list_eq; intros i.
  rewrite lookup_zip_with, !list_lookup_fmap, lookup_zip_with.
  by destruct (xs !! i), (ys !! i).
Qed.

(** ** Shapes *)

Lemma same_shape_true {A B} (a : ndarray A) (b : ndarray B) :
  shape a = shape b -> same_shape a b = true.
Proof.
  unfold shape, same_shape; intros [= -> ->]. by rewrite !Nat.eqb_refl.
Qed.

Lemma ufunc2_same {A B C} (f : A -> B -> C) (a : ndarray A) (b : ndarray B) :
  shape a = shape b ->
  ufunc2 f a b = Ok (NDArray (shape0 a) (shape1 a) (zip_with f (items a) (items b))).
Proof. intros H. unfold ufunc2. by rewrite same_shape_true. Qed.

(** ** The mask, entry by entry *)

Lemma good_pixels_ok {A B} (nd : ndarray A) (im2 : ndarray B) (nx ny : ndarray Z) :
  shape nx = shape ny ->
  good_pixels nd im2 nx ny =
    Ok (NDArray (shape0 nx) (shape1 nx)
          ((fun p : Z * Z => good (shape0 nd) (shape1 nd) (shape0 im2) (shape1 im2) p.1 p.2)
             <$> zip (items nx) (items ny))).
Proof.
  intros Hs. unfold good_pixels, logical_or, logical_not.
  rewrite ufunc2_same by done. simpl.
  rewrite zip_with_fmap_zip.
  repeat (rewrite ufunc2_same by done; simpl;
          rewrite ?zip_with_zip_r, ?zip_with_zip_l).
  unfold ufunc; simpl. rewrite <- list_fmap_compose. done.
Qed.

Lemma good_spec H1 W1 H2 W2 x y :
  good H1 W1 H2 W2 x y = true <->
  0 <= x /\ 0 <= y /\ x <= Z.of_nat W1 - 1 /\ y <= Z.of_nat H1 - 1
  /\ x <= Z.of_nat W2 - 1 /\ y <= Z.of_nat H2 - 1.
Proof.
  unfold good. rewrite negb_true_iff, !orb_false_iff.
  rewrite !Z.ltb_ge, !Z.gtb_ltb, !Z.ltb_ge. tauto.
Qed.

(** ** Reading the second image *)

Lemma normalize_index_id n i :
  0 <= i <= Z.of_nat n - 1 -> normalize_index n i = Ok i.
Proof.
  intros Hi. unfold normalize_index.
  destruct (0 <=? i) eqn:H0; [|lia].
  destruct (i <? Z.of_nat n) eqn:H1; [done|lia].
Qed.

Lemma getitem2_peek (a : ndarray spec_float) y x :
  well_shaped a ->
  0 <= y <= Z.of_nat (shape0 a) - 1 -> 0 <= x <= Z.of_nat (shape1 a) - 1 ->
  getitem2 a y x = Ok (peek a y x).
Proof.
  intros Hw Hy Hx. unfold getitem2, peek.
  rewrite !normalize_index_id by done. simpl.
  destruct (lookup_lt_is_Some_2 (items a)
              (Z.to_nat (y * Z.of_nat (shape1 a) + x))) as [v ->]; [|done].
  rewrite Hw. nia.
Qed.

Lemma getitem_fancy_peek (a : ndarray spec_float) (sel : list (Z * Z)) :
  well_shaped a ->
  Forall (fun p => 0 <= p.1 <= Z.of_nat (shape1 a) - 1
                   /\ 0 <= p.2 <= Z.of_nat (shape0 a) - 1) sel ->
  getitem_fancy a (snd <$> sel) (fst <$> sel)
  = Ok ((fun p => peek a p.2 p.1) <$> sel).
Proof.
  intros Hw. induction 1 as [|[x y] sel [Hx Hy] _ IH]; csimpl; [done|].
  rewrite getitem2_peek by done. csimpl. by rewrite IH.
Qed.

(** ** The substitution passes, entry by entry *)

Lemma zero_nan_zero v : zero_to_nan (nan_to_zero (zero_to_nan v)) = zero_to_nan v.
Proof. by destruct v as [[]|[]| |[] m e]. Qed.

Lemma setitem_mask_scalar_ufunc {A} (f : A -> bool) (a : ndarray A) v :
  setitem_mask_scalar a (ufunc f a) v = Ok (ufunc (fun x => if f x then v else x) a).
Proof.
  unfold setitem_mask_scalar. rewrite same_shape_true by done.
  unfold ufunc; simpl. do 2 f_equal.
  apply list_eq; intros i.
  rewrite lookup_zip_with, !list_lookup_fmap. by destruct (items a !! i).
Qed.

Lemma zeros_to_nan_ok a : zeros_to_nan a = Ok (ufunc zero_to_nan a).
Proof. apply setitem_mask_scalar_ufunc. Qed.

Lemma nans_to_zero_ok a : nans_to_zero a = Ok (ufunc nan_to_zero a).
Proof. apply setitem_mask_scalar_ufunc. Qed.

Lemma ufunc_ufunc {A B C} (f : A -> B) (g : B -> C) a :
  ufunc g (ufunc f a) = ufunc (g ∘ f) a.
Proof. unfold ufunc; simpl. by rewrite <- list_fmap_compose. Qed.

Lemma ufunc_ext {A B} (f g : A -> B) a : (forall v, f v = g v) -> ufunc f a = ufunc g a.
Proof. intros H. unfold ufunc. f_equal. by apply list_fmap_ext. Qed.

Lemma blank_ok a : blank a = Ok (ufunc zero_to_nan a).
Proof.
  unfold blank. rewrite zeros_to_nan_ok; simpl.
  rewrite nans_to_zero_ok; simpl. rewrite zeros_to_nan_ok.
  rewrite !ufunc_ufunc. f_equal. apply ufunc_ext; intros v. apply zero_nan_zero.
Qed.

(** ** The resampler, entry by entry *)

Lemma resampler_ok im1 im2 nx ny :
  well_shaped im2 -> well_shaped nx -> well_shaped ny ->
  shape nx = shape im1 -> shape ny = shape im1 ->
  resampler im1 im2 nx ny =
    Ok (NDArray (shape0 im1) (shape1 im1)
          ((fun p : Z * Z => good_at im1 im2 p.1 p.2) <$> zip (items nx) (items ny)),
        NDArray (shape0 im1) (shape1 im1)
          ((fun p : Z * Z => newdata_at im1 im2 p.1 p.2) <$> zip (items nx) (items ny))).
Proof.
  intros Hw2 Hwx Hwy Hsx Hsy.
  pose proof Hsx as [= Hx0 Hx1]. pose proof Hsy as [= Hy0 Hy1].
  assert (Hlx : length (items nx) = (shape0 im1 * shape1 im1)%nat)
    by (rewrite Hwx; congruence).
  assert (Hly : length (items ny) = (shape0 im1 * shape1 im1)%nat)
    by (rewrite Hwy; congruence).
  unfold resampler. rewrite good_pixels_ok by congruence. csimpl.
  set (pts := zip (items nx) (items ny)).
  set (g := fun p : Z * Z => good _ _ _ _ p.1 p.2).
  assert (Hlp : length pts = (shape0 im1 * shape1 im1)%nat).
  { unfold pts. rewrite length_zip_with, Hlx, Hly. apply Nat.min_id. }
  unfold copy_good, getitem_mask.
  rewrite !same_shape_true by (unfold shape; simpl; congruence). csimpl.
  rewrite <- (snd_zip (items nx) (items ny)) at 1 by lia.
  rewrite <- (fst_zip (items nx) (items ny)) at 2 by lia.
  fold pts. rewrite !select_fmap.
  rewrite getitem_fancy_peek; [|done|]; last first.
  { eapply Forall_impl; [apply select_Forall|].
    intros [x y] Hg. apply good_spec in Hg. simpl in Hg |- *. clear -Hg. lia. }
  csimpl. unfold setitem_mask.
  rewrite same_shape_true by (unfold shape; simpl; congruence).
  rewrite length_fmap, length_select by (by rewrite length_fmap).
  rewrite Nat.eqb_refl. csimpl.
  rewrite put_select by (by rewrite length_replicate).
  rewrite zip_with_replicate_r_eq by done.
  rewrite blank_ok. csimpl. unfold ufunc; csimpl.
  rewrite Hx0, Hx1, <- list_fmap_compose. done.
Qed.

(** ** Entries by row and column *)

Lemma at2_lookup {A} (a : ndarray A) r c v :
  at2 a r c = Some v ->
  (r < shape0 a)%nat /\ (c < shape1 a)%nat /\ items a !! (r * shape1 a + c)%nat = Some v.
Proof.
  unfold at2.
  destruct (r <? shape0 a)%nat eqn:Hr; [|done].
  destruct (c <? shape1 a)%nat eqn:Hc; [|done].
  apply Nat.ltb_lt in Hr, Hc. done.
Qed.

Lemma at2_fmap_zip {A B C} (f : A * B -> C) (a : ndarray A) (b : ndarray B) h w r c x y :
  shape a = (h, w) -> shape b = (h, w) ->
  at2 a r c = Some x -> at2 b r c = Some y ->
  at2 (NDArray h w (f <$> zip (items a) (items b))) r c = Some (f (x, y)).
Proof.
  intros [= <- <-] [= Hb0 Hb1] (Hr & Hc & Hx)%at2_lookup (_ & _ & Hy)%at2_lookup.
  unfold at2; simpl.
  apply Nat.ltb_lt in Hr, Hc. rewrite Hr, Hc. simpl.
  rewrite list_lookup_fmap, lookup_zip_with, Hx. simpl.
  rewrite <- Hb1, Hy. done.
Qed.


(** The resampler returns, and at every position the mask and the new data
    are the entry-wise functions of the mapped coordinates there. *)
Lemma resampler_at im1 im2 nx ny :
  well_shaped im2 -> well_shaped nx -> well_shaped ny ->
  shape nx = shape im1 -> shape ny = shape im1 ->
  exists mask out,
    resampler im1 im2 nx ny = Ok (mask, out)
    /\ shape mask = shape im1 /\ shape out = shape im1
    /\ forall r c x y,
         at2 nx r c = Some x -> at2 ny r c = Some y ->
         at2 mask r c = Some (good_at im1 im2 x y)
         /\ at2 out r c = Some (newdata_at im1 im2 x y).
Proof.
  intros Hw2 Hwx Hwy Hsx Hsy.
  eexists _, _. split; [by apply resampler_ok|].
  split; [done|]. split; [done|].
  intros r c x y Hx Hy.
  split.
  - apply (at2_fmap_zip (fun p : Z * Z => good_at im1 im2 p.1 p.2) nx ny); done.
  - apply (at2_fmap_zip (fun p : Z * Z => newdata_at im1 im2 p.1 p.2) nx ny); done.
Qed.


(** ** Claims about the resampler *)

(** C1. Mask correctness: whatever the mapped coordinate field and the target
    raster, at a position whose mapped X' or Y' lies outside [0, dim-1] of the
    destination or of the target raster, the validity mask is false and the
    output raster holds the missing-data sentinel (NaN). *)
Theorem mask_correctness im1 im2 nx ny r c x y :
  well_shaped im2 -> well_shaped nx -> well_shaped ny ->
  shape nx = shape im1 -> shape ny = shape im1 ->
  at2 nx r c = Some x -> at2 ny r c = Some y ->
  ~ (0 <= x <= Z.of_nat (shape1 im1) - 1) \/ ~ (0 <= y <= Z.of_nat (shape0 im1) - 1)
  \/ ~ (0 <= x <= Z.of_nat (shape1 im2) - 1) \/ ~ (0 <= y <= Z.of_nat (shape0 im2) - 1) ->
  exists mask out,
    resampler im1 im2 nx ny = Ok (mask, out)
    /\ at2 mask r c = Some false
    /\ at2 out r c = Some nan.
Proof.
  intros Hw2 Hwx Hwy Hsx Hsy Hx Hy Hout.
  destruct (resampler_at im1 im2 nx ny) as (mask & out & Hrun & _ & _ & Hat); try done.
  destruct (Hat r c x y Hx Hy) as [Hm Ho].
  assert (Hbad : good_at im1 im2 x y = false).
  { apply not_true_is_false. unfold good_at. rewrite good_spec. lia. }
  exists mask, out. split; [done|].
  rewrite Hm, Ho. unfold newdata_at. fold (good_at im1 im2 x y).
  by rewrite Hbad.
Qed.

Lemma mask_correctness_witness :
  exists mask out,
    resampler (F11 zero) (F11 five) (M11 5) (M11 0) = Ok (mask, out)
    /\ at2 mask 0 0 = Some false
    /\ at2 out 0 0 = Some nan.
Proof.
  apply (mask_correctness (F11 zero) (F11 five) (M11 5) (M11 0) 0 0 5 0);
    try reflexivity.
  left. simpl. lia.
Defined.



(** C9. Wherever the validity mask is true, the index pair (Y', X') is an
    index into the target raster without wraparound: 0 <= X' <= width - 1 and
    0 <= Y' <= height - 1, numpy's index normalisation leaves both unchanged,
    and every index the copy step selects for reading is of that kind. *)
Theorem copy_reads_in_bounds {A} (im1 : ndarray A) (im2 : ndarray spec_float) nx ny :
  well_shaped nx -> well_shaped ny ->
  shape nx = shape im1 -> shape ny = shape im1 ->
  exists mask ys xs,
    good_pixels (zeros_like im1) im2 nx ny = Ok mask
    /\ (forall r c x y,
          at2 mask r c = Some true -> at2 nx r c = Some x -> at2 ny r c = Some y ->
          0 <= x <= Z.of_nat (shape1 im2) - 1 /\ 0 <= y <= Z.of_nat (shape0 im2) - 1
          /\ normalize_index (shape1 im2) x = Ok x
          /\ normalize_index (shape0 im2) y = Ok y)
    /\ getitem_mask ny mask = Ok ys /\ getitem_mask nx mask = Ok xs
    /\ Forall (fun y => 0 <= y <= Z.of_nat (shape0 im2) - 1) ys
    /\ Forall (fun x => 0 <= x <= Z.of_nat (shape1 im2) - 1) xs.
Proof.
  intros Hwx Hwy Hsx Hsy.
  pose proof Hsx as [= Hx0 Hx1]. pose proof Hsy as [= Hy0 Hy1].
  assert (Hlen : length (items nx) = length (items ny))
    by (rewrite Hwx, Hwy; congruence).
  set (g := fun p : Z * Z =>
              good (shape0 im1) (shape1 im1) (shape0 im2) (shape1 im2) p.1 p.2).
  set (pts := zip (items nx) (items ny)).
  assert (Hin : forall p, g p = true ->
            0 <= p.1 <= Z.of_nat (shape1 im2) - 1
            /\ 0 <= p.2 <= Z.of_nat (shape0 im2) - 1).
  { intros [x y] Hg. apply good_spec in Hg. simpl in Hg |- *. lia. }
  assert (Hsel : Forall (fun p => g p = true) (select (g <$> pts) pts))
    by apply select_Forall.
  exists (NDArray (shape0 nx) (shape1 nx) (g <$> pts)),
    (snd <$> select (g <$> pts) pts), (fst <$> select (g <$> pts) pts).
  split; [by rewrite good_pixels_ok by congruence|].
  split.
  - intros r c x y Hm Hx Hy.
    pose proof (at2_fmap_zip g nx ny (shape0 nx) (shape1 nx) r c x y) as Hat.
    fold pts in Hat. rewrite Hat in Hm by (done || (unfold shape; congruence)).
    injection Hm as Hg. apply Hin in Hg. simpl in Hg.
    rewrite !normalize_index_id by lia. repeat split; lia.
  - unfold getitem_mask.
    rewrite !same_shape_true by (unfold shape; simpl; congruence).
    assert (Hys : select (g <$> pts) (items ny) = snd <$> select (g <$> pts) pts).
    { rewrite <- select_fmap. unfold pts. by rewrite snd_zip by lia. }
    assert (Hxs : select (g <$> pts) (items nx) = fst <$> select (g <$> pts) pts).
    { rewrite <- select_fmap. unfold pts. by rewrite fst_zip by lia. }
    simpl. rewrite Hys, Hxs. repeat split.
    + apply Forall_fmap. eapply Forall_impl; [exact Hsel|].
      intros p Hp. apply Hin in Hp. simpl. lia.
    + apply Forall_fmap. eapply Forall_impl; [exact Hsel|].
      intros p Hp. apply Hin in Hp. simpl. lia.
Qed.

Lemma copy_reads_in_bounds_witness :
  exists mask ys xs,
    good_pixels (zeros_like (F11 zero)) (F11 five) (M11 0) (M11 0) = Ok mask
    /\ (forall r c x y,
          at2 mask r c = Some true ->
          at2 (M11 0) r c = Some x -> at2 (M11 0) r c = Some y ->
          0 <= x <= Z.of_nat (shape1 (F11 five)) - 1
          /\ 0 <= y <= Z.of_nat (shape0 (F11 five)) - 1
          /\ normalize_index (shape1 (F11 five)) x = Ok x
          /\ normalize_index (shape0 (F11 five)) y = Ok y)
    /\ getitem_mask (M11 0) mask = Ok ys /\ getitem_mask (M11 0) mask = Ok xs
    /\ Forall (fun y => 0 <= y <= Z.of_nat (shape0 (F11 five)) - 1) ys
    /\ Forall (fun x => 0 <= x <= Z.of_nat (shape1 (F11 five)) - 1) xs.
Proof.
  apply (copy_reads_in_bounds (F11 zero) (F11 five) (M11 0) (M11 0)); reflexivity.
Defined.

(** C10. The three substitution passes in a row (zeros to NaN, NaNs to zero,
    zeros to NaN) give, on every array, the same result as the single pass
    that replaces zeros with NaN; a NaN already present is NaN in both. *)
Theorem three_passes_one_pass (a : ndarray spec_float) :
  blank a = zeros_to_nan a
  /\ exists b, zeros_to_nan a = Ok b
       /\ shape b = shape a
       /\ forall i v, items a !! i = Some v ->
            items b !! i = Some (if equal0 v || isnan v then nan else v).
Proof.
  split; [by rewrite blank_ok, zeros_to_nan_ok|].
  exists (ufunc zero_to_nan a). split; [apply zeros_to_nan_ok|]. split; [done|].
  intros i v Hv. unfold ufunc; simpl. rewrite list_lookup_fmap, Hv. simpl.
  f_equal. by destruct v as [[]|[]| |[] m e].
Qed.

(** ** The destination checks *)

Lemma good_pixels_four_ok {B} (im2 : ndarray B) (nx ny : ndarray Z) :
  shape nx = shape ny ->
  good_pixels_four im2 nx ny =
    Ok (NDArray (shape0 nx) (shape1 nx)
          ((fun p : Z * Z => good_four (shape0 im2) (shape1 im2) p.1 p.2)
             <$> zip (items nx) (items ny))).
Proof.
  intros Hs. unfold good_pixels_four, logical_or, logical_not.
  rewrite ufunc2_same by done. simpl.
  rewrite zip_with_fmap_zip.
  repeat (rewrite ufunc2_same by done; simpl;
          rewrite ?zip_with_zip_r, ?zip_with_zip_l).
  unfold ufunc; simpl. rewrite <- list_fmap_compose. done.
Qed.

Lemma good_four_spec H2 W2 x y :
  good_four H2 W2 x y = true <->
  0 <= x /\ 0 <= y /\ x <= Z.of_nat W2 - 1 /\ y <= Z.of_nat H2 - 1.
Proof.
  unfold good_four. rewrite negb_true_iff, !orb_false_iff.
  rewrite !Z.ltb_ge, !Z.gtb_ltb, !Z.ltb_ge. tauto.
Qed.

Lemma same_shape_false_raise {A B} (nd : ndarray A) (im2 : ndarray B) nx ny :
  same_shape nx ny = false ->
  good_pixels nd im2 nx ny = Raise ValueError
  /\ good_pixels_four im2 nx ny = Raise ValueError.
Proof.
  intros Hs. unfold good_pixels, good_pixels_four, logical_or, ufunc2.
  change (same_shape (ufunc _ nx) (ufunc _ ny)) with (same_shape nx ny).
  by rewrite Hs.
Qed.

Lemma same_shape_eq {A B} (a : ndarray A) (b : ndarray B) :
  same_shape a b = true -> shape a = shape b.
Proof.
  unfold same_shape, shape. intros [H0 H1]%andb_true_iff.
  apply Nat.eqb_eq in H0, H1. congruence.
Qed.

(** C7, as stated, fails: with a target raster wider than the destination, a
    mapped X' beyond the destination but inside the target passes the four
    checks and fails the six. *)
Lemma destination_checks_not_redundant :
  let im1 := F11 zero in
  let im2 := NDArray 1 2 [five; five] in
  let nx := M11 1 in
  let ny := M11 0 in
  well_shaped im1 /\ well_shaped im2 /\ well_shaped nx /\ well_shaped ny
  /\ shape nx = shape im1 /\ shape ny = shape im1
  /\ good_pixels (zeros_like im1) im2 nx ny = Ok (NDArray 1 1 [false])
  /\ good_pixels_four im2 nx ny = Ok (NDArray 1 1 [true])
  /\ good_pixels (zeros_like im1) im2 nx ny <> good_pixels_four im2 nx ny.
Proof. repeat split; done. Qed.

(** C7, amended. When the target raster is no taller and no wider than the
    destination, the two destination checks change nothing: the mask of the
    six checks is the mask of the four checks [X' >= 0], [Y' >= 0],
    [X' <= target width - 1], [Y' <= target height - 1]. *)
Theorem destination_checks_redundant {A B} (nd : ndarray A) (im2 : ndarray B) nx ny :
  (shape0 im2 <= shape0 nd)%nat -> (shape1 im2 <= shape1 nd)%nat ->
  good_pixels nd im2 nx ny = good_pixels_four im2 nx ny.
Proof.
  intros H0 H1.
  destruct (same_shape nx ny) eqn:Hs.
  - apply same_shape_eq in Hs.
    rewrite good_pixels_ok, good_pixels_four_ok by done.
    do 2 f_equal. apply list_fmap_ext; intros _ [x y] _. simpl.
    apply eq_true_iff_eq. rewrite good_spec, good_four_spec. lia.
  - destruct (same_shape_false_raise nd im2 nx ny Hs) as [-> ->]. done.
Qed.

Lemma destination_checks_redundant_witness :
  good_pixels (zeros_like (NDArray 1 2 [five; five])) (F11 five)
    (NDArray 1 2 [0; 1]) (NDArray 1 2 [0; 0])
  = good_pixels_four (F11 five) (NDArray 1 2 [0; 1]) (NDArray 1 2 [0; 0]).
Proof.
  apply (destination_checks_redundant (zeros_like (NDArray 1 2 [five; five]))
           (F11 five)); simpl; lia.
Defined.

(** ** The grid generator *)

Lemma flat_map_nil_r {A B} (l : list A) : flat_map (fun _ => @nil B) l = [].
Proof. by induction l. Qed.

(** C4, as stated, fails: asked for a grid with no rows, the grid generator
    raises nothing and returns two arrays without entries. *)
Lemma grid_generator_accepts_nonpositive :
  grid_generator 0 3 = Ok (NDArray 0 3 [], NDArray 0 3 [])
  /\ ~ (forall H W, H <= 0 \/ W <= 0 -> exists e, grid_generator H W = Raise e).
Proof.
  split; [reflexivity|].
  intros Hrej. destruct (Hrej 0 3) as [e He]; [lia|]. discriminate He.
Qed.

(** C4, amended. For every requested H and W with H <= 0 or W <= 0, the grid
    generator raises no error: it returns a pair of arrays of shape
    (max H 0, max W 0) that hold no entry. *)
Theorem grid_generator_nonpositive H W :
  H <= 0 \/ W <= 0 ->
  grid_generator H W
  = Ok (NDArray (Z.to_nat H) (Z.to_nat W) [], NDArray (Z.to_nat H) (Z.to_nat W) []).
Proof.
  intros Hneg. unfold grid_generator, grid, meshgrid, arange.
  rewrite !length_seqZ.
  destruct Hneg as [HH|HW].
  - replace (seqZ 0 H) with (@nil Z); [done|].
    symmetry. apply length_zero_iff_nil. rewrite length_seqZ. lia.
  - replace (seqZ 0 W) with (@nil Z).
    + simpl. by rewrite !flat_map_nil_r.
    + symmetry. apply length_zero_iff_nil. rewrite length_seqZ. lia.
Qed.

Lemma grid_generator_nonpositive_witness :
  grid_generator 2 (-1) = Ok (NDArray 2 0 [], NDArray 2 0 []).
Proof. apply (grid_generator_nonpositive 2 (-1)). right. lia. Defined.

(** The buffer of rows of one length [n]: entry [c] of row [r] sits at
    [r * n + c]. *)
Lemma lookup_flat_map_rows {A B} (f : A -> list B) (n : nat) (l : list A) r c :
  (forall a, length (f a) = n) -> (c < n)%nat ->
  flat_map f l !! (r * n + c)%nat = l !! r ≫= fun a => f a !! c.
Proof.
  intros Hlen Hc. revert r; induction l as [|a l IH]; intros r; simpl.
  - by rewrite !lookup_nil.
  - destruct r as [|r]; simpl.
    + rewrite lookup_app_l by (rewrite Hlen; lia). done.
    + rewrite lookup_app_r by (rewrite Hlen; lia).
      rewrite Hlen. replace (n + r * n + c - n)%nat with (r * n + c)%nat by lia.
      apply IH.
Qed.

Lemma length_flat_map_rows {A B} (f : A -> list B) (n : nat) (l : list A) :
  (forall a, length (f a) = n) -> length (flat_map f l) = (length l * n)%nat.
Proof.
  intros Hlen. induction l as [|a l IH]; simpl; [done|].
  rewrite length_app, Hlen, IH. done.
Qed.

Lemma grid_shape H W :
  shape (grid H W).1 = (Z.to_nat H, Z.to_nat W)
  /\ shape (grid H W).2 = (Z.to_nat H, Z.to_nat W)
  /\ well_shaped (grid H W).1 /\ well_shaped (grid H W).2.
Proof.
  unfold grid, meshgrid, arange, shape, well_shaped; simpl.
  rewrite !length_seqZ. repeat split.
  - rewrite (length_flat_map_rows _ (Z.to_nat W)), length_seqZ; [done|].
    intros _. apply length_seqZ.
  - rewrite (length_flat_map_rows _ (Z.to_nat W)), length_seqZ; [done|].
    intros a. rewrite length_map. apply length_seqZ.
Qed.

Lemma grid_at H W r c :
  Z.of_nat r < H -> Z.of_nat c < W ->
  at2 (grid H W).1 r c = Some (Z.of_nat c)
  /\ at2 (grid H W).2 r c = Some (Z.of_nat r).
Proof.
  intros Hr Hc. unfold grid, meshgrid, arange, at2; simpl.
  rewrite !length_seqZ.
  assert (Hr' : (r <? Z.to_nat H)%nat = true) by (apply Nat.ltb_lt; lia).
  assert (Hc' : (c <? Z.to_nat W)%nat = true) by (apply Nat.ltb_lt; lia).
  rewrite Hr', Hc'. simpl. split.
  - rewrite (lookup_flat_map_rows _ (Z.to_nat W)); [|intros _; apply length_seqZ|lia].
    rewrite lookup_seqZ_lt by lia. simpl. rewrite lookup_seqZ_lt by lia. f_equal; lia.
  - rewrite (lookup_flat_map_rows _ (Z.to_nat W));
      [|intros a; rewrite length_map; apply length_seqZ|lia].
    rewrite lookup_seqZ_lt by lia. simpl.
    rewrite list_lookup_fmap, lookup_seqZ_lt by lia. simpl. f_equal; lia.
Qed.

(** C6. For all H, W > 0 the grid generator returns two arrays X and Y of
    shape (H, W) with X[r, c] = c and Y[r, c] = r at every row r < H and
    column c < W. *)
Theorem grid_generator_spec H W :
  0 < H -> 0 < W ->
  exists X Y,
    grid_generator H W = Ok (X, Y)
    /\ shape X = (Z.to_nat H, Z.to_nat W) /\ shape Y = (Z.to_nat H, Z.to_nat W)
    /\ well_shaped X /\ well_shaped Y
    /\ forall r c, Z.of_nat r < H -> Z.of_nat c < W ->
         at2 X r c = Some (Z.of_nat c) /\ at2 Y r c = Some (Z.of_nat r).
Proof.
  intros _ _. exists (grid H W).1, (grid H W).2.
  split; [done|].
  destruct (grid_shape H W) as (? & ? & ? & ?).
  repeat split; try done; by apply grid_at.
Qed.

Lemma grid_generator_spec_witness :
  exists X Y,
    grid_generator 2 3 = Ok (X, Y)
    /\ shape X = (Z.to_nat 2, Z.to_nat 3) /\ shape Y = (Z.to_nat 2, Z.to_nat 3)
    /\ well_shaped X /\ well_shaped Y
    /\ forall r c, Z.of_nat r < 2 -> Z.of_nat c < 3 ->
         at2 X r c = Some (Z.of_nat c) /\ at2 Y r c = Some (Z.of_nat r).
Proof. apply (grid_generator_spec 2 3); lia. Defined.

(** ** The coordinate mapper *)

Lemma zip_with_zip_with {A B C D E} (g : C -> D -> E) (f1 : A -> B -> C)
    (f2 : A -> B -> D) (xs : list A) (ys : list B) :
  zip_with g (zip_with f1 xs ys) (zip_with f2 xs ys)
  = (fun p : A * B => g (f1 p.1 p.2) (f2 p.1 p.2)) <$> zip xs ys.
Proof.
  apply list_eq; intros i.
  rewrite list_lookup_fmap, !lookup_zip_with.
  by destruct (xs !! i), (ys !! i).
Qed.

Lemma zip_with_uncurry {A B C} (f : A -> B -> C) (xs : list A) (ys : list B) :
  zip_with f xs ys = (fun p : A * B => f p.1 p.2) <$> zip xs ys.
Proof.
  apply list_eq; intros i.
  rewrite list_lookup_fmap, !lookup_zip_with.
  by destruct (xs !! i), (ys !! i).
Qed.

Lemma coordinate_grid_shape {A} (im1 : ndarray A) :
  shape (coordinate_grid im1).1 = shape im1
  /\ shape (coordinate_grid im1).2 = shape im1
  /\ well_shaped (coordinate_grid im1).1 /\ well_shaped (coordinate_grid im1).2.
Proof.
  unfold coordinate_grid.
  destruct (grid_shape (Z.of_nat (shape0 im1)) (Z.of_nat (shape1 im1)))
    as (HX & HY & HwX & HwY).
  rewrite !Nat2Z.id in HX, HY. done.
Qed.

Lemma coordinate_mapper_ok {A} invalid (im1 : ndarray A) w1 w2 :
  let X := (coordinate_grid im1).1 in
  let Y := (coordinate_grid im1).2 in
  let pts := zip (items X) (items Y) in
  let H := shape0 im1 in
  let W := shape1 im1 in
  coordinate_mapper invalid im1 w1 w2 =
    Ok (Mapping X Y
          (NDArray H W ((fun p : Z * Z => (all_pix2world w1 p.1 p.2 0).1) <$> pts))
          (NDArray H W ((fun p : Z * Z => (all_pix2world w1 p.1 p.2 0).2) <$> pts))
          (NDArray H W ((fun p => astype_int invalid (rint (through w1 w2 p).1)) <$> pts))
          (NDArray H W ((fun p => astype_int invalid (rint (through w1 w2 p).2)) <$> pts))).
Proof.
  intros X Y pts H W.
  destruct (coordinate_grid_shape im1) as (HX & HY & _ & _).
  fold X in HX. fold Y in HY.
  pose proof HX as [= HX0 HX1].
  unfold coordinate_mapper.
  rewrite (surjective_pairing (coordinate_grid im1)). fold X Y.
  unfold pix2world. rewrite !ufunc2_same by congruence. csimpl.
  unfold world2pix. rewrite !ufunc2_same by done. csimpl.
  unfold to_int, ufunc; csimpl.
  rewrite !zip_with_zip_with, <- !list_fmap_compose.
  rewrite HX0, HX1.
  rewrite (zip_with_uncurry (fun x y => (all_pix2world w1 x y 0).1)).
  rewrite (zip_with_uncurry (fun x y => (all_pix2world w1 x y 0).2)).
  done.
Qed.

(** *** Floats that hold an integer *)

Lemma exact_float_of_Z z : exact (float_of_Z z) z.
Proof. destruct z; simpl; lia. Qed.

Lemma round_half_even_exact m e n :
  0 < n -> (if 0 <=? e then n = Z.pos m * 2 ^ e else Z.pos m = n * 2 ^ (- e)) ->
  round_half_even m e = n.
Proof.
  intros Hn He. unfold round_half_even.
  destruct (0 <=? e) eqn:Hsign; [done|].
  apply Z.leb_gt in Hsign.
  assert (Hd : 0 < 2 ^ (- e)) by (apply Z.pow_pos_nonneg; lia).
  rewrite He, Z.div_mul, Z.mod_mul by lia.
  replace (2 * 0) with 0 by lia.
  apply Z.compare_lt_iff in Hd. by rewrite Hd.
Qed.

Lemma truncate_integer s p :
  truncate (S754_finite s p 0) = Some (if s then Z.neg p else Z.pos p).
Proof.
  unfold truncate. f_equal. change (0 <=? 0) with true. cbv iota.
  rewrite Z.pow_0_r. destruct s; lia.
Qed.

Lemma to_int_exact invalid v z :
  exact v z -> int_min <= z <= int_max -> astype_int invalid (rint v) = z.
Proof.
  intros Hv Hz.
  assert (Hrange : (int_min <=? z) && (z <=? int_max) = true).
  { apply andb_true_iff. split; apply Z.leb_le; lia. }
  destruct v as [s|s| |s m e]; simpl in Hv; try done.
  set (n := Z.abs z).
  assert (Hn : 0 < n /\ z = if s then - n else n).
  { unfold n. destruct (0 <=? e) eqn:Hsign.
    - apply Z.leb_le in Hsign.
      assert (0 < 2 ^ e) by (apply Z.pow_pos_nonneg; lia).
      destruct s; subst z; nia.
    - apply Z.leb_gt in Hsign.
      assert (0 < 2 ^ (- e)) by (apply Z.pow_pos_nonneg; lia).
      destruct s; nia. }
  destruct Hn as [Hpos Hzn].
  assert (Hr : round_half_even m e = n).
  { apply round_half_even_exact; [done|].
    destruct (0 <=? e); destruct s; nia. }
  unfold rint. rewrite Hr.
  destruct n as [|p|p]; try lia.
  unfold astype_int. rewrite truncate_integer.
  replace (if s then Z.neg p else Z.pos p) with z by (destruct s; lia).
  by rewrite Hrange.
Qed.


(** *** The entries of the grid *)

Lemma grid_range H W :
  Forall (fun x => 0 <= x < W) (items (grid H W).1)
  /\ Forall (fun y => 0 <= y < H) (items (grid H W).2).
Proof.
  unfold grid, meshgrid, arange; simpl. split.
  - apply Forall_flat_map, Forall_forall. intros ? ?.
    apply Forall_seqZ. lia.
  - apply Forall_flat_map, Forall_seqZ. intros y Hy.
    apply Forall_fmap, Forall_forall. intros ? ?. simpl. lia.
Qed.

Lemma grid_points_range {A} (im1 : ndarray A) i x y :
  zip (items (coordinate_grid im1).1) (items (coordinate_grid im1).2) !! i = Some (x, y) ->
  0 <= x < Z.of_nat (shape1 im1) /\ 0 <= y < Z.of_nat (shape0 im1).
Proof.
  rewrite lookup_zip_with.
  destruct (grid_range (Z.of_nat (shape0 im1)) (Z.of_nat (shape1 im1))) as [HX HY].
  unfold coordinate_grid.
  destruct (items (grid _ _).1 !! i) as [x'|] eqn:Hx; [|done].
  destruct (items (grid _ _).2 !! i) as [y'|] eqn:Hy; [|done].
  simpl. intros [= <- <-].
  split.
  - eapply (Forall_lookup_1 _ _ _ _ HX Hx).
  - eapply (Forall_lookup_1 _ _ _ _ HY Hy).
Qed.

Lemma shape_eq_inv {A B} (a : ndarray A) (b : ndarray B) :
  shape a = shape b -> shape0 a = shape0 b /\ shape1 a = shape1 b.
Proof. unfold shape. by intros [= -> ->]. Qed.

Lemma ndarray_eta {A} (a : ndarray A) h w l :
  shape a = (h, w) -> items a = l -> NDArray h w l = a.
Proof. destruct a. unfold shape; simpl. by intros [= -> ->] ->. Qed.

(** C5. Round trip: when the source and the target transform are one and the
    same and its sky -> pixel direction undoes its pixel -> sky direction
    exactly on the pixels of the grid, the mapped coordinate field, after
    rounding and conversion to integers, is the coordinate grid itself. *)
Theorem identity_round_trip {A} invalid (im1 : ndarray A) w :
  Z.of_nat (shape0 im1) <= 2 ^ 63 -> Z.of_nat (shape1 im1) <= 2 ^ 63 ->
  (forall x y, 0 <= x < Z.of_nat (shape1 im1) -> 0 <= y < Z.of_nat (shape0 im1) ->
     exact (through w w (x, y)).1 x /\ exact (through w w (x, y)).2 y) ->
  exists m,
    coordinate_mapper invalid im1 w w = Ok m
    /\ (xarray m, yarray m) = coordinate_grid im1
    /\ newxarray m = xarray m
    /\ newyarray m = yarray m.
Proof.
  intros HH HW Hid.
  eexists. split; [apply coordinate_mapper_ok|].
  cbn [xarray yarray newxarray newyarray].
  destruct (coordinate_grid_shape im1) as (HX & HY & HwX & HwY).
  assert (Hlen : length (items (coordinate_grid im1).1)
                 = length (items (coordinate_grid im1).2)).
  { rewrite HwX, HwY.
    destruct (shape_eq_inv _ _ HX) as [-> ->].
    destruct (shape_eq_inv _ _ HY) as [-> ->]. done. }
  split; [by destruct (coordinate_grid im1)|].
  split; apply ndarray_eta; try done.
  - rewrite <- (fst_zip (items (coordinate_grid im1).1)
                  (items (coordinate_grid im1).2)) at 1 by lia.
    symmetry. apply list_fmap_ext. intros i [x y] Hp.
    apply grid_points_range in Hp as [Hx Hy].
    destruct (Hid x y Hx Hy) as [Hex _].
    apply to_int_exact; [done|]. clear -Hx Hy HH HW.
    unfold int_min, int_max. simpl fst. simpl snd. lia.
  - rewrite <- (snd_zip (items (coordinate_grid im1).1)
                  (items (coordinate_grid im1).2)) at 1 by lia.
    symmetry. apply list_fmap_ext. intros i [x y] Hp.
    apply grid_points_range in Hp as [Hx Hy].
    destruct (Hid x y Hx Hy) as [_ Hey].
    apply to_int_exact; [done|]. clear -Hx Hy HH HW.
    unfold int_min, int_max. simpl fst. simpl snd. lia.
Qed.

Lemma identity_round_trip_witness :
  exists m,
    coordinate_mapper (fun _ => int_min) (NDArray 2 2 [five; five; five; five])
      plain_wcs plain_wcs = Ok m
    /\ (xarray m, yarray m) = coordinate_grid (NDArray 2 2 [five; five; five; five])
    /\ newxarray m = xarray m
    /\ newyarray m = yarray m.
Proof.
  apply (identity_round_trip (fun _ => int_min) (NDArray 2 2 [five; five; five; five])
           plain_wcs).
  - simpl. lia.
  - simpl. lia.
  - intros x y _ _. split; apply exact_float_of_Z.
Defined.

(** ** The whole run *)

(** C8. On a source raster of shape (H, W) the script runs to its end, and the
    coordinate grid (X, Y), the sky coordinate field (RA, Dec), the mapped
    coordinate field (X', Y'), the validity mask and the output raster all have
    shape (H, W), with H * W entries each. *)
Theorem shape_invariant invalid (im1 im2 : ndarray spec_float) w1 w2 :
  well_shaped im2 ->
  exists r,
    script invalid im1 im2 w1 w2 = Ok r
    /\ shaped_like (xarray (coords r)) im1
    /\ shaped_like (yarray (coords r)) im1
    /\ shaped_like (ra_array (coords r)) im1
    /\ shaped_like (dec_array (coords r)) im1
    /\ shaped_like (newxarray (coords r)) im1
    /\ shaped_like (newyarray (coords r)) im1
    /\ shaped_like (boolean_array r) im1
    /\ shaped_like (newdata r) im1.
Proof.
  intros Hw2.
  pose proof (coordinate_mapper_ok invalid im1 w1 w2) as Hm. cbv zeta in Hm.
  destruct (coordinate_grid_shape im1) as (HX & HY & HwX & HwY).
  destruct (shape_eq_inv _ _ HX) as [HX0 HX1].
  destruct (shape_eq_inv _ _ HY) as [HY0 HY1].
  unfold well_shaped in HwX, HwY. rewrite HX0, HX1 in HwX. rewrite HY0, HY1 in HwY.
  set (X := (coordinate_grid im1).1) in *.
  set (Y := (coordinate_grid im1).2) in *.
  assert (Hlp : length (zip (items X) (items Y)) = (shape0 im1 * shape1 im1)%nat).
  { rewrite length_zip_with, HwX, HwY. apply Nat.min_id. }
  set (pts := zip (items X) (items Y)) in *.
  clearbody pts X Y.
  eexists. split.
  { unfold script. rewrite Hm. csimpl.
    rewrite resampler_ok; [csimpl; reflexivity|done|..]; try done;
      unfold well_shaped; simpl; by rewrite length_fmap. }
  unfold shaped_like; cbn [coords xarray yarray ra_array dec_array newxarray
                             newyarray boolean_array newdata items].
  rewrite !length_fmap, !length_zip_with, !length_fmap, Hlp.
  repeat split; try done; apply Nat.min_id.
Qed.

Lemma shape_invariant_witness :
  exists r,
    script (fun _ => int_min) (NDArray 1 2 [five; zero]) (F11 five)
      plain_wcs plain_wcs = Ok r
    /\ shaped_like (xarray (coords r)) (NDArray 1 2 [five; zero])
    /\ shaped_like (yarray (coords r)) (NDArray 1 2 [five; zero])
    /\ shaped_like (ra_array (coords r)) (NDArray 1 2 [five; zero])
    /\ shaped_like (dec_array (coords r)) (NDArray 1 2 [five; zero])
    /\ shaped_like (newxarray (coords r)) (NDArray 1 2 [five; zero])
    /\ shaped_like (newyarray (coords r)) (NDArray 1 2 [five; zero])
    /\ shaped_like (boolean_array r) (NDArray 1 2 [five; zero])
    /\ shaped_like (newdata r) (NDArray 1 2 [five; zero]).
Proof.
  apply (shape_invariant (fun _ => int_min) (NDArray 1 2 [five; zero]) (F11 five)
           plain_wcs plain_wcs).
  reflexivity.
Defined.

(** ** A NaN from the transform *)

(** The bound checks of lines 274-279 see the integer that the conversion of
    line 246 made of the NaN, not the NaN.  Where the conversion gives the most
    negative integer the pixel is bad and the output is NaN; where it gives 0
    the pixel is good and the output is the sample at column 0. *)
Example nan_converted_to_int_min :
  script (fun _ => int_min) (F11 zero) (F11 five) nan_wcs nan_wcs
  = Ok (Run (Mapping (M11 0) (M11 0) (F11 zero) (F11 zero) (M11 int_min) (M11 0))
          (NDArray 1 1 [false]) (F11 nan)).
Proof. reflexivity. Qed.


(** * Further properties of the script *)

(** ** meshgrid on any two lists *)



(** ** Integer indices *)

Lemma normalize_index_spec n i :
  normalize_index n i =
    if (- Z.of_nat n <=? i) && (i <? Z.of_nat n) then Ok (i mod Z.of_nat n)
    else Raise IndexError.
Proof.
  unfold normalize_index.
  destruct (Z.leb_spec 0 i), (Z.ltb_spec i (Z.of_nat n)),
    (Z.leb_spec (- Z.of_nat n) i), (Z.ltb_spec i 0); simpl; try lia; try done.
  - rewrite Z.mod_small by lia. done.
  - f_equal. apply Z.mod_unique_pos with (q := -1); lia.
Qed.

(** X2. Line 57, [data[y, x]] with two integers: on an array of shape (H, W)
    it returns exactly when -H <= y < H and -W <= x < W, and then it is the
    entry in row [y mod H], column [x mod W]; otherwise it raises IndexError. *)
Theorem getitem2_in_range {A} (a : ndarray A) y x :
  well_shaped a ->
  getitem2 a y x =
    if (- Z.of_nat (shape0 a) <=? y) && (y <? Z.of_nat (shape0 a))
       && ((- Z.of_nat (shape1 a) <=? x) && (x <? Z.of_nat (shape1 a)))
    then match at2 a (Z.to_nat (y mod Z.of_nat (shape0 a)))
                 (Z.to_nat (x mod Z.of_nat (shape1 a))) with
         | Some v => Ok v
         | None => Raise IndexError
         end
    else Raise IndexError.
Proof.
  intros Hw. unfold getitem2. rewrite !normalize_index_spec.
  destruct ((- Z.of_nat (shape0 a) <=? y) && (y <? Z.of_nat (shape0 a))) eqn:Hy;
    [|done].
  destruct ((- Z.of_nat (shape1 a) <=? x) && (x <? Z.of_nat (shape1 a))) eqn:Hx;
    [|done].
  simpl. unfold at2.
  assert (0 <= y mod Z.of_nat (shape0 a) < Z.of_nat (shape0 a))
    by (apply Z.mod_pos_bound; lia).
  assert (0 <= x mod Z.of_nat (shape1 a) < Z.of_nat (shape1 a))
    by (apply Z.mod_pos_bound; lia).
  replace (Z.to_nat (y mod Z.of_nat (shape0 a)) <? shape0 a)%nat with true
    by (symmetry; apply Nat.ltb_lt; lia).
  replace (Z.to_nat (x mod Z.of_nat (shape1 a)) <? shape1 a)%nat with true
    by (symmetry; apply Nat.ltb_lt; lia).
  simpl. do 2 f_equal.
  rewrite Z2Nat.inj_add, Z2Nat.inj_mul, Nat2Z.id by nia. done.
Qed.

Lemma getitem2_in_range_witness :
  getitem2 (NDArray 1 2 [five; zero]) (-1) 1 =
    if (- Z.of_nat 1 <=? -1) && (-1 <? Z.of_nat 1)
       && ((- Z.of_nat 2 <=? 1) && (1 <? Z.of_nat 2))
    then match at2 (NDArray 1 2 [five; zero]) (Z.to_nat (-1 mod Z.of_nat 1))
                 (Z.to_nat (1 mod Z.of_nat 2)) with
         | Some v => Ok v
         | None => Raise IndexError
         end
    else Raise IndexError.
Proof. apply (getitem2_in_range (NDArray 1 2 [five; zero]) (-1) 1). reflexivity. Defined.

(** ** Rows, columns and slices *)

Lemma row_in_buffer (H W r : nat) : (r < H)%nat -> (r * W + W <= H * W)%nat.
Proof. nia. Qed.

(** X3. Line 69, [data[i, :]]: for -H <= i < H it is the row [i mod H], W
    entries long; outside that range it raises IndexError. *)
Theorem getitem_row_spec {A} (a : ndarray A) i :
  well_shaped a ->
  (- Z.of_nat (shape0 a) <= i < Z.of_nat (shape0 a) ->
   exists row,
     getitem_row a i = Ok row
     /\ length row = shape1 a
     /\ forall c, row !! c = at2 a (Z.to_nat (i mod Z.of_nat (shape0 a))) c)
  /\ (~ (- Z.of_nat (shape0 a) <= i < Z.of_nat (shape0 a)) ->
      getitem_row a i = Raise IndexError).
Proof.
  intros Hw. unfold getitem_row. rewrite normalize_index_spec.
  destruct (Z.leb_spec (- Z.of_nat (shape0 a)) i), (Z.ltb_spec i (Z.of_nat (shape0 a)));
    simpl; (split; [intros Hin|intros Hout]); try lia; try done.
  set (r := Z.to_nat (i mod Z.of_nat (shape0 a))).
  assert (Hr : (r < shape0 a)%nat).
  { unfold r. pose proof (Z.mod_pos_bound i (Z.of_nat (shape0 a))). lia. }
  pose proof (row_in_buffer _ (shape1 a) _ Hr) as Hbuf.
  eexists. split; [done|]. split.
  - rewrite length_take, length_drop, Hw. lia.
  - intros c. unfold at2. apply Nat.ltb_lt in Hr as ->. simpl.
    destruct (Nat.ltb_spec c (shape1 a)).
    + by rewrite lookup_take_lt, lookup_drop by done.
    + apply lookup_ge_None. rewrite length_take. lia.
Qed.

Lemma getitem_row_spec_witness :
  (- Z.of_nat 1 <= -1 < Z.of_nat 1 ->
   exists row,
     getitem_row (NDArray 1 2 [five; zero]) (-1) = Ok row
     /\ length row = 2%nat
     /\ forall c, row !! c
                  = at2 (NDArray 1 2 [five; zero]) (Z.to_nat (-1 mod Z.of_nat 1)) c)
  /\ (~ (- Z.of_nat 1 <= -1 < Z.of_nat 1) ->
      getitem_row (NDArray 1 2 [five; zero]) (-1) = Raise IndexError).
Proof. apply (getitem_row_spec (NDArray 1 2 [five; zero]) (-1)). reflexivity. Defined.

Lemma omap_lookup_all {A B} (f : A -> option B) (l : list A) (i : nat) :
  Forall (fun x => is_Some (f x)) l ->
  length (omap f l) = length l /\ omap f l !! i = l !! i ≫= f.
Proof.
  intros Hall. revert i. induction Hall as [|x l [v Hv] _ IH]; intros i; csimpl.
  - by rewrite lookup_nil.
  - rewrite Hv. csimpl. destruct i as [|i]; simpl.
    + split; [by rewrite (proj1 (IH 0%nat))|done].
    + split; [by rewrite (proj1 (IH 0%nat))|apply IH].
Qed.

(** X4. Line 73, [data[:, j]]: for -W <= j < W it is the column [j mod W], H
    entries long; outside that range it raises IndexError. *)
Theorem getitem_col_spec {A} (a : ndarray A) j :
  well_shaped a ->
  (- Z.of_nat (shape1 a) <= j < Z.of_nat (shape1 a) ->
   exists col,
     getitem_col a j = Ok col
     /\ length col = shape0 a
     /\ forall r, col !! r = at2 a r (Z.to_nat (j mod Z.of_nat (shape1 a))))
  /\ (~ (- Z.of_nat (shape1 a) <= j < Z.of_nat (shape1 a)) ->
      getitem_col a j = Raise IndexError).
Proof.
  intros Hw. unfold getitem_col. rewrite normalize_index_spec.
  destruct (Z.leb_spec (- Z.of_nat (shape1 a)) j), (Z.ltb_spec j (Z.of_nat (shape1 a)));
    simpl; (split; [intros Hin|intros Hout]); try lia; try done.
  set (c := Z.to_nat (j mod Z.of_nat (shape1 a))).
  assert (Hc : (c < shape1 a)%nat).
  { unfold c. pose proof (Z.mod_pos_bound j (Z.of_nat (shape1 a))). lia. }
  assert (Hall : Forall (fun r => is_Some (items a !! (r * shape1 a + c)%nat))
                   (seq 0 (shape0 a))).
  { apply Forall_forall. intros r Hr%elem_of_seq.
    apply lookup_lt_is_Some_2. rewrite Hw. nia. }
  eexists. split; [done|]. split.
  - rewrite (proj1 (omap_lookup_all _ _ 0%nat Hall)). apply length_seq.
  - intros r. rewrite (proj2 (omap_lookup_all _ _ r Hall)).
    unfold at2. apply Nat.ltb_lt in Hc as ->. rewrite andb_true_r.
    destruct (Nat.ltb_spec r (shape0 a)).
    + by rewrite lookup_seq_lt by done.
    + by rewrite lookup_ge_None_2 by (rewrite length_seq; lia).
Qed.

Lemma getitem_col_spec_witness :
  (- Z.of_nat 2 <= 1 < Z.of_nat 2 ->
   exists col,
     getitem_col (NDArray 1 2 [five; zero]) 1 = Ok col
     /\ length col = 1%nat
     /\ forall r, col !! r
                  = at2 (NDArray 1 2 [five; zero]) r (Z.to_nat (1 mod Z.of_nat 2)))
  /\ (~ (- Z.of_nat 2 <= 1 < Z.of_nat 2) ->
      getitem_col (NDArray 1 2 [five; zero]) 1 = Raise IndexError).
Proof. apply (getitem_col_spec (NDArray 1 2 [five; zero]) 1). reflexivity. Defined.

Lemma length_flat_map_Forall {A B} (f : A -> list B) (n : nat) (l : list A) :
  Forall (fun a => length (f a) = n) l ->
  length (flat_map f l) = (length l * n)%nat.
Proof.
  induction 1 as [|a l Ha _ IH]; simpl; [done|].
  by rewrite length_app, Ha, IH.
Qed.

Lemma lookup_flat_map_Forall {A B} (f : A -> list B) (n : nat) (l : list A) r c :
  Forall (fun a => length (f a) = n) l -> (c < n)%nat ->
  flat_map f l !! (r * n + c)%nat = l !! r ≫= fun a => f a !! c.
Proof.
  intros Hlen Hc. revert r; induction Hlen as [|a l Ha _ IH]; intros r; simpl.
  - by rewrite !lookup_nil.
  - destruct r as [|r]; simpl.
    + rewrite lookup_app_l by (rewrite Ha; lia). done.
    + rewrite lookup_app_r by (rewrite Ha; lia).
      rewrite Ha. replace (n + r * n + c - n)%nat with (r * n + c)%nat by lia.
      apply IH.
Qed.

(** X5. Line 77, [data[:k, -k:]] with k > 0: the first k rows of the last k
    columns, cut down to what the array has: its shape is (min k H, min k W)
    and its entry (r, c) is the entry of [data] in row r, column
    W - min k W + c.  Nothing is raised, however small the array. *)
Theorem getitem_slices_corner {A} (a : ndarray A) (k : nat) :
  well_shaped a -> (0 < k)%nat ->
  let b := getitem_slices a None (Some (Z.of_nat k)) (Some (- Z.of_nat k)) None in
  shape b = (min k (shape0 a), min k (shape1 a))
  /\ well_shaped b
  /\ forall r c, (r < min k (shape0 a))%nat -> (c < min k (shape1 a))%nat ->
       at2 b r c = at2 a r (shape1 a - min k (shape1 a) + c).
Proof.
  intros Hw Hk b. subst b. unfold getitem_slices, slice_start, slice_stop.
  set (H := shape0 a) in *. set (W := shape1 a) in *.
  assert (Hr1 : clip H (Z.of_nat k) = min k H).
  { unfold clip. destruct (Z.ltb_spec (Z.of_nat k) 0); lia. }
  assert (Hc0 : clip W (- Z.of_nat k) = (W - min k W)%nat).
  { unfold clip. destruct (Z.ltb_spec (- Z.of_nat k) 0); lia. }
  rewrite Hr1, Hc0, Nat.sub_0_r.
  replace (W - (W - min k W))%nat with (min k W) by lia.
  assert (Hrows : Forall (fun r => length (take (min k W)
                            (drop (r * W + (W - min k W)) (items a))) = min k W)
                    (seq 0 (min k H))).
  { apply Forall_forall. intros r Hr%elem_of_seq.
    rewrite length_take, length_drop, Hw. fold H W.
    assert (r * W + W <= H * W)%nat by (apply row_in_buffer; lia). lia. }
  unfold shape, well_shaped; simpl. split; [done|]. split.
  - rewrite (length_flat_map_Forall _ (min k W) _ Hrows). by rewrite length_seq.
  - intros r c Hr Hc. unfold at2; simpl. fold H W.
    apply Nat.ltb_lt in Hr as Hr', Hc as Hc'. rewrite Hr', Hc'. simpl.
    replace (r <? H)%nat with true by (symmetry; apply Nat.ltb_lt; lia).
    replace (W - min k W + c <? W)%nat with true by (symmetry; apply Nat.ltb_lt; lia).
    simpl.
    rewrite (lookup_flat_map_Forall _ (min k W) _ r c Hrows Hc).
    rewrite lookup_seq_lt by done. simpl.
    rewrite lookup_take_lt, lookup_drop by done. f_equal. lia.
Qed.

Lemma getitem_slices_corner_witness :
  let b := getitem_slices (NDArray 1 2 [five; zero]) None (Some (Z.of_nat 5))
             (Some (- Z.of_nat 5)) None in
  shape b = (min 5 1, min 5 2)
  /\ well_shaped b
  /\ forall r c, (r < min 5 1)%nat -> (c < min 5 2)%nat ->
       at2 b r c = at2 (NDArray 1 2 [five; zero]) r (2 - min 5 2 + c).
Proof.
  apply (getitem_slices_corner (NDArray 1 2 [five; zero]) 5); [reflexivity|lia].
Defined.

(** ** Selecting pixels with a boolean array *)

Lemma np_sum_count (a : ndarray bool) : np_sum a = Z.of_nat (count (items a)).
Proof.
  unfold np_sum. induction (items a) as [|b l IH]; simpl; [done|].
  rewrite IH. destruct b; lia.
Qed.

(** X6. Lines 149 and 171: [np.sum(boolean_array)] is the number of values that
    [data[boolean_array]] returns, for a boolean array of the shape of [data]. *)
Theorem sum_counts_selected {A} (data : ndarray A) (boolean_array : ndarray bool) :
  well_shaped data -> well_shaped boolean_array ->
  shape boolean_array = shape data ->
  exists pix_values,
    getitem_mask data boolean_array = Ok pix_values
    /\ Z.of_nat (length pix_values) = np_sum boolean_array.
Proof.
  intros Hwd Hwm Hs. unfold getitem_mask.
  rewrite same_shape_true by done.
  eexists. split; [done|].
  rewrite np_sum_count, length_select; [done|].
  rewrite Hwd, Hwm. destruct (shape_eq_inv _ _ Hs) as [-> ->]. done.
Qed.

Lemma sum_counts_selected_witness :
  exists pix_values,
    getitem_mask (NDArray 1 2 [five; zero]) (NDArray 1 2 [false; true]) = Ok pix_values
    /\ Z.of_nat (length pix_values) = np_sum (NDArray 1 2 [false; true]).
Proof.
  apply (sum_counts_selected (NDArray 1 2 [five; zero]) (NDArray 1 2 [false; true]));
    reflexivity.
Defined.

Lemma select_lookup_sound {A} (mask : list bool) (l : list A) j p :
  select mask l !! j = Some p ->
  exists i, mask !! i = Some true /\ l !! i = Some p.
Proof.
  revert l j; induction mask as [|b mask IH]; intros [|v l] j; simpl; try done.
  destruct b.
  - destruct j as [|j]; simpl.
    + intros [= ->]. by exists 0%nat.
    + intros (i & Hm & Hl)%IH. by exists (S i).
  - intros (i & Hm & Hl)%IH. by exists (S i).
Qed.

Lemma select_elem_complete {A} (mask : list bool) (l : list A) i p :
  mask !! i = Some true -> l !! i = Some p -> p ∈ select mask l.
Proof.
  revert l i; induction mask as [|b mask IH]; intros [|v l] [|i]; simpl; try done.
  - intros [= ->] [= ->]. apply list_elem_of_here.
  - intros Hm Hl. destruct b; [apply list_elem_of_further|]; by eapply IH.
Qed.

Lemma getitem1_lookup {A} (l : list A) (k : nat) v :
  l !! k = Some v -> getitem1 l (Z.of_nat k) = Ok v.
Proof.
  intros Hk. unfold getitem1.
  apply lookup_lt_Some in Hk as Hlt.
  rewrite normalize_index_id by lia. simpl. by rewrite Nat2Z.id, Hk.
Qed.

Lemma print_rows_drop xs ys vs (k cnt : nat) :
  length xs = (k + cnt)%nat -> length ys = (k + cnt)%nat -> length vs = (k + cnt)%nat ->
  print_rows xs ys vs (seqZ (Z.of_nat k) (Z.of_nat cnt))
  = Ok (drop k (zip (zip xs ys) vs)).
Proof.
  revert k; induction cnt as [|cnt IH]; intros k Hx Hy Hv.
  - rewrite seqZ_nil by lia. simpl.
    rewrite drop_ge; [done|]. rewrite !length_zip_with. lia.
  - rewrite seqZ_cons by lia. simpl.
    destruct (lookup_lt_is_Some_2 xs k) as [x Hxk]; [lia|].
    destruct (lookup_lt_is_Some_2 ys k) as [y Hyk]; [lia|].
    destruct (lookup_lt_is_Some_2 vs k) as [v Hvk]; [lia|].
    rewrite (getitem1_lookup xs k x), (getitem1_lookup ys k y),
      (getitem1_lookup vs k v) by done. csimpl.
    replace (Z.succ (Z.of_nat k)) with (Z.of_nat (S k)) by lia.
    replace (Z.pred (Z.of_nat (S cnt))) with (Z.of_nat cnt) by lia.
    rewrite IH by lia. csimpl.
    rewrite (drop_S _ (x, y, v) k); [done|].
    rewrite !lookup_zip_with, Hxk, Hyk, Hvk. done.
Qed.

(** The entries of the grid along the buffer: position [i] is column
    [i mod W] of row [i / W]. *)
Lemma coordinate_grid_flat {A} (data : ndarray A) (i : nat) :
  (i < shape0 data * shape1 data)%nat ->
  items (coordinate_grid data).1 !! i = Some (Z.of_nat (i mod shape1 data))
  /\ items (coordinate_grid data).2 !! i = Some (Z.of_nat (i / shape1 data)).
Proof.
  intros Hi.
  assert (HW : (0 < shape1 data)%nat) by nia.
  pose proof (Nat.mod_upper_bound i (shape1 data) ltac:(lia)) as Hc.
  pose proof (Nat.div_mod_eq i (shape1 data)) as Hdm.
  assert (Hr : (i / shape1 data < shape0 data)%nat).
  { apply Nat.Div0.div_lt_upper_bound. lia. }
  destruct (grid_at (Z.of_nat (shape0 data)) (Z.of_nat (shape1 data))
              (i / shape1 data) (i mod shape1 data)) as [HX HY]; [lia|lia|].
  destruct (coordinate_grid_shape data) as (HsX & HsY & _ & _).
  destruct (shape_eq_inv _ _ HsX) as [_ HX1].
  destruct (shape_eq_inv _ _ HsY) as [_ HY1].
  apply at2_lookup in HX as (_ & _ & HX). apply at2_lookup in HY as (_ & _ & HY).
  fold (coordinate_grid data) in HX, HY.
  rewrite HX1 in HX. rewrite HY1 in HY.
  replace (i / shape1 data * shape1 data + i mod shape1 data)%nat with i in HX, HY
    by lia.
  done.
Qed.

Lemma list_pixels_ok (data : ndarray spec_float) (boolean_array : ndarray bool) :
  well_shaped data -> well_shaped boolean_array ->
  shape boolean_array = shape data ->
  list_pixels data boolean_array
  = Ok (select (items boolean_array)
          (zip (zip (items (coordinate_grid data).1) (items (coordinate_grid data).2))
             (items data))).
Proof.
  intros Hwd Hwm Hs.
  destruct (coordinate_grid_shape data) as (HsX & HsY & HwX & HwY).
  destruct (shape_eq_inv _ _ Hs) as [Hm0 Hm1].
  destruct (shape_eq_inv _ _ HsX) as [HX0 HX1].
  destruct (shape_eq_inv _ _ HsY) as [HY0 HY1].
  unfold well_shaped in *. rewrite HX0, HX1 in HwX. rewrite HY0, HY1 in HwY.
  rewrite Hm0, Hm1 in Hwm.
  unfold list_pixels.
  rewrite (surjective_pairing (coordinate_grid data)).
  set (X := (coordinate_grid data).1) in *. set (Y := (coordinate_grid data).2) in *.
  clearbody X Y.
  unfold getitem_mask.
  rewrite !same_shape_true by (unfold shape; congruence). csimpl.
  set (m := items boolean_array) in *.
  set (n := count m).
  assert (Hlen : forall {T} (l : list T),
            length l = (shape0 data * shape1 data)%nat -> length (select m l) = n).
  { intros T l Hl. apply length_select. congruence. }
  rewrite (Hlen _ (items data)) by done. unfold arange.
  rewrite (print_rows_drop _ _ _ 0 n) by (simpl; by apply Hlen).
  rewrite drop_0. f_equal.
  set (t := zip (zip (items X) (items Y)) (items data)).
  assert (Hxy : length (zip (items X) (items Y)) = (shape0 data * shape1 data)%nat).
  { rewrite length_zip_with, HwX, HwY. apply Nat.min_id. }
  assert (HtD : items data = snd <$> t).
  { unfold t. by rewrite snd_zip by lia. }
  assert (HtX : items X = (fun p : Z * Z * spec_float => p.1.1) <$> t).
  { unfold t. symmetry. etrans; [apply (list_fmap_compose fst fst)|].
    by rewrite fst_zip, fst_zip by lia. }
  assert (HtY : items Y = (fun p : Z * Z * spec_float => p.1.2) <$> t).
  { unfold t. symmetry. etrans; [apply (list_fmap_compose fst snd)|].
    by rewrite fst_zip, snd_zip by lia. }
  rewrite HtD at 1. rewrite HtX at 1. rewrite HtY at 1.
  rewrite !select_fmap.
  generalize (select m t). clear. intros l.
  induction l as [|[[x y] v] l IH]; csimpl; [done|]. by rewrite IH.
Qed.

(** X7. Lines 184-188: for a boolean array of the shape of the image, the loop
    runs to its end without an IndexError, prints as many rows as the array
    has True entries, and every row (x, y, value) is a selected pixel with its
    own value: the boolean array is True at row y, column x, and
    [data[y, x]] is the value. *)
Theorem listed_rows_match (data : ndarray spec_float) (boolean_array : ndarray bool) :
  well_shaped data -> well_shaped boolean_array ->
  shape boolean_array = shape data ->
  exists rows,
    list_pixels data boolean_array = Ok rows
    /\ Z.of_nat (length rows) = np_sum boolean_array
    /\ forall x y v, (x, y, v) ∈ rows ->
         0 <= x < Z.of_nat (shape1 data) /\ 0 <= y < Z.of_nat (shape0 data)
         /\ at2 boolean_array (Z.to_nat y) (Z.to_nat x) = Some true
         /\ getitem2 data y x = Ok v.
Proof.
  intros Hwd Hwm Hs.
  destruct (shape_eq_inv _ _ Hs) as [Hm0 Hm1].
  eexists. split; [by apply list_pixels_ok|]. split.
  - rewrite np_sum_count, length_select; [done|].
    destruct (coordinate_grid_shape data) as (HsX & HsY & HwX & HwY).
    destruct (shape_eq_inv _ _ HsX) as [HX0 HX1].
    destruct (shape_eq_inv _ _ HsY) as [HY0 HY1].
    rewrite !length_zip_with, HwX, HwY, Hwd, Hwm. lia.
  - intros x y v (j & Hj)%list_elem_of_lookup.
    apply select_lookup_sound in Hj as (i & Hmi & Hti).
    rewrite !lookup_zip_with in Hti.
    destruct (items (coordinate_grid data).1 !! i) as [x'|] eqn:HXi; [|done].
    destruct (items (coordinate_grid data).2 !! i) as [y'|] eqn:HYi; [|done].
    destruct (items data !! i) as [v'|] eqn:HDi; [|done].
    simpl in Hti. injection Hti as -> -> ->.
    apply lookup_lt_Some in HDi as Hi. rewrite Hwd in Hi.
    destruct (coordinate_grid_flat data i Hi) as [HX HY].
    rewrite HXi in HX. rewrite HYi in HY. injection HX as ->. injection HY as ->.
    assert (HW : (0 < shape1 data)%nat) by nia.
    pose proof (Nat.mod_upper_bound i (shape1 data) ltac:(lia)) as Hc.
    pose proof (Nat.div_mod_eq i (shape1 data)) as Hdm.
    assert (Hr : (i / shape1 data < shape0 data)%nat)
      by (apply Nat.Div0.div_lt_upper_bound; lia).
    split; [lia|]. split; [lia|]. split.
    + unfold at2. rewrite !Nat2Z.id, Hm0, Hm1.
      apply Nat.ltb_lt in Hr as ->. apply Nat.ltb_lt in Hc as ->. simpl.
      replace (i / shape1 data * shape1 data + i mod shape1 data)%nat with i by lia.
      done.
    + unfold getitem2. rewrite !normalize_index_id by lia. simpl.
      replace (Z.to_nat _) with i by nia. by rewrite HDi.
Qed.

Lemma listed_rows_match_witness :
  exists rows,
    list_pixels (NDArray 1 2 [five; zero]) (NDArray 1 2 [false; true]) = Ok rows
    /\ Z.of_nat (length rows) = np_sum (NDArray 1 2 [false; true])
    /\ forall x y v, (x, y, v) ∈ rows ->
         0 <= x < Z.of_nat 2 /\ 0 <= y < Z.of_nat 1
         /\ at2 (NDArray 1 2 [false; true]) (Z.to_nat y) (Z.to_nat x) = Some true
         /\ getitem2 (NDArray 1 2 [five; zero]) y x = Ok v.
Proof.
  apply (listed_rows_match (NDArray 1 2 [five; zero]) (NDArray 1 2 [false; true]));
    reflexivity.
Defined.

(** X8. Lines 184-188: every pixel at which the boolean array is True is
    printed, as the row (column, row, value of the pixel). *)
Theorem selected_pixels_listed (data : ndarray spec_float) (boolean_array : ndarray bool)
    (r c : nat) v :
  well_shaped data -> well_shaped boolean_array ->
  shape boolean_array = shape data ->
  at2 boolean_array r c = Some true -> at2 data r c = Some v ->
  exists rows,
    list_pixels data boolean_array = Ok rows
    /\ (Z.of_nat c, Z.of_nat r, v) ∈ rows.
Proof.
  intros Hwd Hwm Hs Hm Hd.
  destruct (shape_eq_inv _ _ Hs) as [Hm0 Hm1].
  eexists. split; [by apply list_pixels_ok|].
  apply at2_lookup in Hm as (_ & _ & Hm). apply at2_lookup in Hd as (Hr & Hc & Hd).
  rewrite Hm1 in Hm.
  set (i := (r * shape1 data + c)%nat) in *.
  assert (Hi : (i < shape0 data * shape1 data)%nat) by (unfold i; nia).
  destruct (coordinate_grid_flat data i Hi) as [HX HY].
  apply (select_elem_complete _ _ i); [done|].
  rewrite !lookup_zip_with, HX, HY, Hd. simpl. do 3 f_equal.
  - unfold i. rewrite Nat.add_comm, Nat.Div0.mod_add. by rewrite Nat.mod_small.
  - unfold i. rewrite Nat.div_add_l by lia. rewrite Nat.div_small by done. lia.
Qed.

Lemma selected_pixels_listed_witness :
  exists rows,
    list_pixels (NDArray 1 2 [five; zero]) (NDArray 1 2 [false; true]) = Ok rows
    /\ (Z.of_nat 1, Z.of_nat 0, zero) ∈ rows.
Proof.
  apply (selected_pixels_listed (NDArray 1 2 [five; zero]) (NDArray 1 2 [false; true])
           0 1 zero); reflexivity.
Defined.

(** ** Rounding to integer coordinates *)

(** X9. Lines 246-247: a finite coordinate [m / 2^(-e)] with a fractional part
    is turned into the nearest integer, a tie going to the even neighbour; the
    sign is kept, and as long as the result fits 64 bits the platform's
    treatment of invalid conversions plays no part. *)
Theorem to_int_nearest_even invalid (s : bool) (m : positive) (e : Z) :
  e < 0 ->
  let d := 2 ^ (- e) in
  let n := round_half_even m e in
  0 <= n
  /\ Z.abs (2 * (n * d - Z.pos m)) <= d
  /\ (Z.abs (2 * (n * d - Z.pos m)) = d -> Z.even n = true)
  /\ (int_min <= (if s then - n else n) <= int_max ->
      astype_int invalid (rint (S754_finite s m e)) = if s then - n else n).
Proof.
  intros He d n.
  assert (Hd : 0 < d) by (apply Z.pow_pos_nonneg; lia).
  pose proof (Z.div_mod (Z.pos m) d ltac:(lia)) as Hdm.
  pose proof (Z.mod_pos_bound (Z.pos m) d Hd) as Hr.
  assert (Hq : 0 <= Z.pos m / d) by (apply Z.div_pos; lia).
  assert (Hrn : round_half_even m e = n) by done.
  assert (Hn : n = round_half_even m e) by done.
  unfold round_half_even in Hn.
  destruct (Z.leb_spec 0 e); [lia|].
  fold d in Hn. cbv zeta in Hn. clearbody n.
  assert (Hcases :
    0 <= n /\ Z.abs (2 * (n * d - Z.pos m)) <= d
    /\ (Z.abs (2 * (n * d - Z.pos m)) = d -> Z.even n = true)).
  { destruct (Z.compare_spec (2 * (Z.pos m mod d)) d) as [Heq|Hlt|Hgt].
    - destruct (Z.even (Z.pos m / d)) eqn:Hev; rewrite Hn.
      + repeat split; [lia|nia|done].
      + repeat split; [lia|nia|].
        intros _. rewrite Z.even_add, Hev. done.
    - rewrite Hn. repeat split; [lia|nia|nia].
    - rewrite Hn. repeat split; [lia|nia|nia]. }
  destruct Hcases as (Hn0 & Hnear & Htie).
  repeat split; try done.
  intros Hfit. unfold rint. rewrite Hrn. clear Hrn Hn Hnear Htie.
  destruct n as [|p|p]; [| |lia].
  - unfold astype_int. simpl. by destruct s.
  - unfold astype_int. rewrite truncate_integer.
    replace (if s then Z.neg p else Z.pos p) with (if s then - Z.pos p else Z.pos p)
      by (by destruct s).
    destruct (Z.leb_spec int_min (if s then - Z.pos p else Z.pos p)); [|lia].
    destruct (Z.leb_spec (if s then - Z.pos p else Z.pos p) int_max); [|lia].
    done.
Qed.

Lemma to_int_nearest_even_witness :
  let d := 2 ^ (- (-1)) in
  let n := round_half_even 5 (-1) in
  0 <= n
  /\ Z.abs (2 * (n * d - Z.pos 5)) <= d
  /\ (Z.abs (2 * (n * d - Z.pos 5)) = d -> Z.even n = true)
  /\ (int_min <= (if true then - n else n) <= int_max ->
      astype_int (fun _ => 0) (rint (S754_finite true 5 (-1))) = if true then - n else n).
Proof. apply (to_int_nearest_even (fun _ => 0) true 5 (-1)). lia. Defined.

(** ** Indexing without the mask *)

Lemma getitem2_raises {A} (a : ndarray A) y x e :
  getitem2 a y x = Raise e -> e = IndexError.
Proof.
  unfold getitem2, normalize_index.
  repeat (match goal with
          | |- context [if ?b then _ else _] => destruct b
          | |- context [match ?o with Some _ => _ | None => _ end] => destruct o
          end; simpl); congruence.
Qed.

Lemma getitem_fancy_raises {A} (a : ndarray A) ys xs (i : nat) y x :
  ys !! i = Some y -> xs !! i = Some x ->
  getitem2 a y x = Raise IndexError ->
  getitem_fancy a ys xs = Raise IndexError.
Proof.
  revert xs i; induction ys as [|y0 ys IH]; intros [|x0 xs] [|i]; simpl; try done.
  - intros [= ->] [= ->] ->. done.
  - intros Hy Hx Hbad.
    destruct (getitem2 a y0 x0) as [v|e] eqn:Hhead; simpl.
    + by rewrite (IH xs i Hy Hx Hbad).
    + by rewrite (getitem2_raises _ _ _ _ Hhead).
Qed.

(** X10. Lines 252-261: indexing the second image with the whole coordinate
    arrays, [im2[0].data[newyarray, newxarray]], raises IndexError as soon as
    one mapped coordinate lies outside [-H2, H2) for rows or [-W2, W2) for
    columns. *)
Theorem copy_all_raises {A} (im2 : ndarray A) (nx ny : ndarray Z) r c x y :
  shape ny = shape nx ->
  at2 nx r c = Some x -> at2 ny r c = Some y ->
  ~ (- Z.of_nat (shape0 im2) <= y < Z.of_nat (shape0 im2)
     /\ - Z.of_nat (shape1 im2) <= x < Z.of_nat (shape1 im2)) ->
  copy_all im2 nx ny = Raise IndexError.
Proof.
  intros Hs Hx Hy Hout. unfold copy_all. rewrite same_shape_true by done.
  destruct (shape_eq_inv _ _ Hs) as [_ Hs1].
  apply at2_lookup in Hx as (_ & _ & Hx). apply at2_lookup in Hy as (_ & _ & Hy).
  rewrite Hs1 in Hy.
  rewrite (getitem_fancy_raises im2 _ _ _ y x Hy Hx); [done|].
  unfold getitem2. rewrite !normalize_index_spec.
  destruct (Z.leb_spec (- Z.of_nat (shape0 im2)) y), (Z.ltb_spec y (Z.of_nat (shape0 im2)));
    simpl; try done;
  destruct (Z.leb_spec (- Z.of_nat (shape1 im2)) x), (Z.ltb_spec x (Z.of_nat (shape1 im2)));
    simpl; try done.
  lia.
Qed.

Lemma copy_all_raises_witness :
  copy_all (F11 five) (M11 1) (M11 0) = Raise IndexError.
Proof.
  apply (copy_all_raises (F11 five) (M11 1) (M11 0) 0 0 1 0); try reflexivity.
  simpl. lia.
Defined.

(** ** Good pixels *)

(** X11. Lines 274-291: the boolean array is True at a position exactly when
    the mapped coordinates there lie inside both images:
    0 <= X' <= min(W1, W2) - 1 and 0 <= Y' <= min(H1, H2) - 1. *)
Theorem good_pixel_iff {A B} (nd : ndarray A) (im2 : ndarray B) nx ny r c x y :
  shape nx = shape ny ->
  at2 nx r c = Some x -> at2 ny r c = Some y ->
  exists mask b,
    good_pixels nd im2 nx ny = Ok mask
    /\ at2 mask r c = Some b
    /\ (b = true <->
        0 <= x <= Z.min (Z.of_nat (shape1 nd)) (Z.of_nat (shape1 im2)) - 1
        /\ 0 <= y <= Z.min (Z.of_nat (shape0 nd)) (Z.of_nat (shape0 im2)) - 1).
Proof.
  intros Hs Hx Hy.
  eexists _, _. split; [by apply good_pixels_ok|]. split.
  - apply (at2_fmap_zip
             (fun p : Z * Z => good (shape0 nd) (shape1 nd) (shape0 im2) (shape1 im2) p.1 p.2)
             nx ny); done.
  - simpl. rewrite good_spec. lia.
Qed.

Lemma good_pixel_iff_witness :
  exists mask b,
    good_pixels (F11 zero) (NDArray 1 2 [five; five]) (M11 1) (M11 0) = Ok mask
    /\ at2 mask 0 0 = Some b
    /\ (b = true <->
        0 <= 1 <= Z.min (Z.of_nat 1) (Z.of_nat 2) - 1
        /\ 0 <= 0 <= Z.min (Z.of_nat 1) (Z.of_nat 1) - 1).
Proof.
  apply (good_pixel_iff (F11 zero) (NDArray 1 2 [five; five]) (M11 1) (M11 0) 0 0 1 0);
    reflexivity.
Defined.




(** ** What ends up in newdata *)



Lemma equal0_zero_to_nan v : equal0 (zero_to_nan v) = false.
Proof. by destruct v as [[]|[]| |[] m e]. Qed.

(** X14. Line 319: no entry of the final [newdata] is equal to zero. *)
Theorem output_has_no_zero (im1 im2 : ndarray spec_float) (nx ny : ndarray Z) :
  well_shaped im2 -> well_shaped nx -> well_shaped ny ->
  shape nx = shape im1 -> shape ny = shape im1 ->
  exists mask out,
    resampler im1 im2 nx ny = Ok (mask, out)
    /\ Forall (fun v => equal0 v = false) (items out).
Proof.
  intros Hw2 Hwx Hwy Hsx Hsy.
  eexists _, _. split; [by apply resampler_ok|]. simpl.
  apply Forall_fmap, Forall_forall. intros p _. apply equal0_zero_to_nan.
Qed.

Lemma output_has_no_zero_witness :
  exists mask out,
    resampler (F11 zero) (F11 zero) (M11 0) (M11 0) = Ok (mask, out)
    /\ Forall (fun v => equal0 v = false) (items out).
Proof.
  apply (output_has_no_zero (F11 zero) (F11 zero) (M11 0) (M11 0)); reflexivity.
Defined.

(** X15. Lines 310-315: after the first two passes (zeros to NaN, NaNs to zero)
    no entry is NaN; an entry that was zero of either sign or NaN is +0, and
    every other entry is as it was. *)
Theorem back_to_zeros (a : ndarray spec_float) :
  exists b,
    zeros_to_nan a ≫= nans_to_zero = Ok b
    /\ shape b = shape a
    /\ Forall (fun v => isnan v = false) (items b)
    /\ forall i v, items a !! i = Some v ->
         items b !! i = Some (if equal0 v || isnan v then zero else v).
Proof.
  exists (ufunc (nan_to_zero ∘ zero_to_nan) a).
  split; [|split; [done|split]].
  - rewrite zeros_to_nan_ok. csimpl. by rewrite nans_to_zero_ok, ufunc_ufunc.
  - simpl. apply Forall_fmap, Forall_forall. intros v _. simpl.
    by destruct v as [[]|[]| |[] m e].
  - intros i v Hv. simpl. rewrite list_lookup_fmap, Hv. simpl. f_equal.
    by destruct v as [[]|[]| |[] m e].
Qed.

(** ** The run, pixel by pixel *)






(** ** Boolean arrays *)

(** X18. Lines 283-291 against lines 156 and 169: for two boolean arrays of
    one shape, negating their [logical_or] gives the [logical_and] of their
    negations; both are computed, neither raises. *)
Theorem not_or_is_and_not (a b : ndarray bool) :
  shape a = shape b ->
  exists m,
    logical_or a b = Ok m
    /\ shape m = shape a
    /\ logical_and (logical_not a) (logical_not b) = Ok (logical_not m).
Proof.
  intros Hs. unfold logical_or, logical_and.
  rewrite !ufunc2_same by done.
  eexists. split; [done|]. split; [done|].
  unfold logical_not, ufunc; simpl. do 2 f_equal.
  apply list_eq; intros i.
  rewrite list_lookup_fmap, !lookup_zip_with, !list_lookup_fmap.
  destruct (items a !! i) as [[]|], (items b !! i) as [[]|]; done.
Qed.

Lemma not_or_is_and_not_witness :
  exists m,
    logical_or (NDArray 1 2 [false; true]) (NDArray 1 2 [false; false]) = Ok m
    /\ shape m = shape (NDArray 1 2 [false; true])
    /\ logical_and (logical_not (NDArray 1 2 [false; true]))
         (logical_not (NDArray 1 2 [false; false])) = Ok (logical_not m).
Proof.
  apply (not_or_is_and_not (NDArray 1 2 [false; true]) (NDArray 1 2 [false; false])).
  reflexivity.
Defined.

Lemma select_put {A} (mask : list bool) (l vals : list A) :
  length l = length mask -> length vals = count mask ->
  select mask (put mask l vals) = vals.
Proof.
  revert l vals; induction mask as [|b mask IH]; intros [|v l] vals Hl Hv;
    simpl in *; try done.
  - by destruct vals.
  - destruct b.
    + destruct vals as [|w vals]; [done|]. simpl in Hv |- *. f_equal. apply IH; lia.
    + apply IH; lia.
Qed.

Lemma select_negb_put {A} (mask : list bool) (l vals : list A) :
  select (negb <$> mask) (put mask l vals) = select (negb <$> mask) l.
Proof.
  revert l vals; induction mask as [|b mask IH]; intros [|v l] vals; csimpl; try done.
  destruct b; simpl.
  - destruct vals; simpl; apply IH.
  - f_equal. apply IH.
Qed.

(** X19. Lines 302-303, assignment through a boolean array: after
    [a[mask] = vals] with as many values as the mask has True entries,
    [a[mask]] gives back exactly [vals], and the entries where the mask is
    False are those of [a] before. *)
Theorem setitem_then_getitem {A} (a : ndarray A) (mask : ndarray bool) (vals : list A) :
  well_shaped a -> well_shaped mask -> shape mask = shape a ->
  length vals = count (items mask) ->
  exists a',
    setitem_mask a mask vals = Ok a'
    /\ shape a' = shape a /\ well_shaped a'
    /\ getitem_mask a' mask = Ok vals
    /\ getitem_mask a' (logical_not mask) = getitem_mask a (logical_not mask).
Proof.
  intros Hwa Hwm Hs Hn.
  destruct (shape_eq_inv _ _ Hs) as [Hs0 Hs1].
  assert (Hlen : length (items a) = length (items mask)).
  { rewrite Hwa, Hwm. congruence. }
  unfold setitem_mask. rewrite same_shape_true by done.
  rewrite Hn, Nat.eqb_refl.
  eexists. split; [done|]. split; [done|]. split.
  { unfold well_shaped; simpl. by rewrite length_put. }
  unfold getitem_mask.
  rewrite !same_shape_true by (unfold shape; simpl; congruence). simpl.
  split; f_equal.
  - by apply select_put.
  - apply select_negb_put.
Qed.

Lemma setitem_then_getitem_witness :
  exists a',
    setitem_mask (NDArray 1 2 [zero; zero]) (NDArray 1 2 [false; true]) [five] = Ok a'
    /\ shape a' = shape (NDArray 1 2 [zero; zero]) /\ well_shaped a'
    /\ getitem_mask a' (NDArray 1 2 [false; true]) = Ok [five]
    /\ getitem_mask a' (logical_not (NDArray 1 2 [false; true]))
       = getitem_mask (NDArray 1 2 [zero; zero]) (logical_not (NDArray 1 2 [false; true])).
Proof.
  apply (setitem_then_getitem (NDArray 1 2 [zero; zero]) (NDArray 1 2 [false; true]) [five]);
    reflexivity.
Defined.

(** ** Coordinates that are not numbers *)




(** ** NaN and infinite coordinates and the mask *)



